(** * faostat-pipeline: fetch, clean and export of FAOSTAT data

    A shallow embedding of the Python package [faostat_pipeline]
    (cleaner.py, client.py, exporter.py, pipeline.py, cli.py) and the
    properties of its access layer and of its fetch / normalise / export
    pipeline.

    Conventions of the embedding:
    - a JSON document is a value of [json]; a Python [dict] is an
      association list in insertion order, looked up by its first binding
      of a key;
    - a function that may raise returns an [outcome];
    - the network, the disk and the clock are explicit: a [world] records
      the requests sent and the file-system operations done so far;
    - pandas, httpx and tenacity are libraries, not code of the package:
      their behaviour on the calls the package makes is written out next
      to each call, and what is left out is said there. *)

From Stdlib Require Import ZArith QArith Ascii String List Bool Lia Lqa.
From stdpp Require Import base option gmap strings.
Import ListNotations.

Local Open Scope string_scope.
Local Open Scope Z_scope.

(** ** Outcomes of a call *)

(** The exception classes the package raises or lets through.  The text
    of a message is kept short; the server's body, which the source quotes
    in its messages, is left out.  [LibraryError] is an exception of any
    other subclass of [Exception] that pandas or pyarrow raises in a write,
    by the name of its class. *)
Inductive exn : Type :=
| FAOSTATAuthError (msg : string)
| FAOSTATRateLimitError (msg : string)
| HTTPStatusError (status_code : Z)
| TransportError (detail : string)
| ValueError (msg : string)
| TypeError (msg : string)
| LibraryError (class_name msg : string)
| ClickAbort.

(** [Returns] and [Raises] are the two ways a Python call ends.
    [OutOfModel] marks an input for which the embedding gives the
    dataframe library no meaning (see [Cleaner.as_records]); no theorem
    below is about such an input. *)
Inductive outcome (A : Type) : Type :=
| Returns (a : A)
| Raises (e : exn)
| OutOfModel.

Arguments Returns {A} a.
Arguments Raises {A} e.
Arguments OutOfModel {A}.

#[global] Instance outcome_ret : MRet outcome := fun _ a => Returns a.

#[global] Instance outcome_bind : MBind outcome := fun _ _ k o =>
  match o with
  | Returns a => k a
  | Raises e => Raises e
  | OutOfModel => OutOfModel
  end.

(** A loop whose body may raise: the first exception ends it. *)
Fixpoint for_each {A B : Type} (f : A -> outcome B) (l : list A) : outcome (list B) :=
  match l with
  | [] => Returns []
  | a :: t => b ← f a; u ← for_each f t; Returns (b :: u)
  end.

(** ** JSON values *)

#[local] Set Warnings "-register-all".

Inductive json : Type :=
| JNull
| JBool (b : bool)
| JInt (z : Z)
| JFloat (q : Q)
| JStr (s : string)
| JList (l : list json)
| JDict (d : list (string * json)).

(** [raw[key]] with [key in raw] tested first. *)
Fixpoint dict_get {V : Type} (key : string) (d : list (string * V)) : option V :=
  match d with
  | [] => None
  | (k, v) :: t => if String.eqb k key then Some v else dict_get key t
  end.

(** The annotation [dict[str, Any] | list[dict]] of cleaner.py. *)
Inductive RawResponse : Type :=
| RList (l : list json)
| RDict (d : list (string * json)).

Definition json_of_raw (raw : RawResponse) : json :=
  match raw with
  | RList l => JList l
  | RDict d => JDict d
  end.

Definition raw_of_json (j : json) : option RawResponse :=
  match j with
  | JList l => Some (RList l)
  | JDict d => Some (RDict d)
  | _ => None
  end.

(** The tuple both envelope scans iterate over. *)
Definition wrapper_keys : list string := ["data"; "Data"; "items"; "results"].

(** [key in raw and isinstance(raw[key], list)] *)
Definition holds_list (d : list (string * json)) (key : string) : option (list json) :=
  match dict_get key d with
  | Some (JList l) => Some l
  | _ => None
  end.

(** [for key in (...): if key in raw and isinstance(raw[key], list): return ...] *)
Fixpoint first_list (keys : list string) (d : list (string * json)) : option (list json) :=
  match keys with
  | [] => None
  | k :: ks =>
      match holds_list d k with
      | Some l => Some l
      | None => first_list ks d
      end
  end.

(** ** Frames *)

(** A cell of a frame, and a field of a record of the data model: a
    string, a number or null.  [SNull] stands for every missing value of
    pandas ([None], [NaN], [<NA>]).  Numbers are exact: a float is the
    rational it denotes, and the rounding of float64 is not modelled. *)
Inductive scalar : Type :=
| SNull
| SStr (s : string)
| SInt (z : Z)
| SFloat (q : Q).

Definition record : Type := list (string * scalar).

(** A [pandas.DataFrame] with the default index: the column labels in
    order (labels may repeat) and the rows, each holding one cell per
    column. *)
Record DataFrame : Type := mkFrame {
  columns : list string;
  rows : list (list scalar)
}.

(** [df.empty]: an axis of length 0. *)
Definition empty (df : DataFrame) : bool :=
  match columns df, rows df with
  | _ :: _, _ :: _ => false
  | _, _ => true
  end.

Definition is_null (v : scalar) : bool :=
  match v with
  | SNull => true
  | _ => false
  end.

Definition number_of (v : scalar) : option Q :=
  match v with
  | SInt z => Some (inject_Z z)
  | SFloat q => Some q
  | _ => None
  end.

(** Equality of two cells as [drop_duplicates] sees it: missing values
    are equal to each other, numbers are compared by value ([1 == 1.0]),
    strings by content. *)
Definition scalar_eqb (a b : scalar) : bool :=
  match a, b with
  | SNull, SNull => true
  | SStr s, SStr t => String.eqb s t
  | SNull, _ | _, SNull | SStr _, _ | _, SStr _ => false
  | _, _ =>
      match number_of a, number_of b with
      | Some p, Some q => Qeq_bool p q
      | _, _ => false
      end
  end.

Fixpoint row_eqb (r1 r2 : list scalar) : bool :=
  match r1, r2 with
  | [], [] => true
  | a :: t1, b :: t2 => scalar_eqb a b && row_eqb t1 t2
  | _, _ => false
  end.

(** Every character of a string passes a test. *)
Fixpoint all_chars (p : ascii -> bool) (s : string) : bool :=
  match s with
  | EmptyString => true
  | String a t => p a && all_chars p t
  end.

(** [col in cols] *)
Definition has_label (col : string) (cols : list string) : bool :=
  existsb (String.eqb col) cols.

Module Cleaner.

(** cleaner.py, [_extract_records] *)
Definition _extract_records (raw : RawResponse) : list json :=
  match raw with
  | RList l => l
  | RDict d =>
      match first_list wrapper_keys d with
      | Some l => l
      | None =>
          match d with
          | [] => []
          | _ :: _ => [JDict d]
          end
      end
  end.

(** *** Column names

    [_to_snake_case].  Python's classes [\s] and [\d] and its
    [str.lower()] follow Unicode.  On a name made of ASCII characters
    each [re.sub] is written out below as the scan it performs; for a name
    with a character outside ASCII the result is what Python computes,
    which the embedding takes as given ([rename_other]). *)

Definition in_range (lo hi : nat) (a : ascii) : bool :=
  let n := nat_of_ascii a in ((lo <=? n) && (n <=? hi))%nat.

Definition is_upper : ascii -> bool := in_range 65 90.
Definition is_lower : ascii -> bool := in_range 97 122.
Definition is_digit : ascii -> bool := in_range 48 57.

(** [\s] within ASCII (tab to carriage return, the four separators 28 to 31,
    space) and the hyphen of the class [[\s\-]]. *)
Definition is_separator (a : ascii) : bool :=
  in_range 9 13 a || in_range 28 32 a || Ascii.eqb a "-"%char.

Definition starts_with (p : ascii -> bool) (s : string) : bool :=
  match s with
  | String a _ => p a
  | EmptyString => false
  end.

Definition starts_upper_lower (s : string) : bool :=
  match s with
  | String a t => is_upper a && starts_with is_lower t
  | EmptyString => false
  end.

(** [re.sub(r"([A-Z]+)([A-Z][a-z])", r"\1_\2", name)]: a match is a run of
    two or more capitals followed by a small letter, and the underscore
    goes before the last capital of the run. *)
Fixpoint sub_acronym (s : string) : string :=
  match s with
  | EmptyString => EmptyString
  | String a t =>
      String a (if is_upper a && starts_upper_lower t
                then String "_" (sub_acronym t)
                else sub_acronym t)
  end.

(** [re.sub(r"([a-z\d])([A-Z])", r"\1_\2", name)] *)
Fixpoint sub_camel (s : string) : string :=
  match s with
  | EmptyString => EmptyString
  | String a t =>
      String a (if (is_lower a || is_digit a) && starts_with is_upper t
                then String "_" (sub_camel t)
                else sub_camel t)
  end.

(** [re.sub(r"[\s\-]+", "_", name)]: one underscore per maximal run. *)
Fixpoint sub_separators (s : string) : string :=
  match s with
  | EmptyString => EmptyString
  | String a t =>
      if is_separator a then
        if starts_with is_separator t then sub_separators t
        else String "_" (sub_separators t)
      else String a (sub_separators t)
  end.

Definition lower_char (a : ascii) : ascii :=
  if is_upper a then ascii_of_nat (nat_of_ascii a + 32) else a.

Fixpoint lower (s : string) : string :=
  match s with
  | EmptyString => EmptyString
  | String a t => String (lower_char a) (lower t)
  end.

Fixpoint lstrip (c : ascii) (s : string) : string :=
  match s with
  | EmptyString => EmptyString
  | String a t => if Ascii.eqb a c then lstrip c t else s
  end.

Fixpoint rstrip (c : ascii) (s : string) : string :=
  match s with
  | EmptyString => EmptyString
  | String a t =>
      match rstrip c t with
      | EmptyString => if Ascii.eqb a c then EmptyString else String a EmptyString
      | t' => String a t'
      end
  end.

(** [name.strip("_")] *)
Definition strip (c : ascii) (s : string) : string := rstrip c (lstrip c s).

Definition is_ascii (a : ascii) : bool := (nat_of_ascii a <? 128)%nat.

(** A name whose characters are all ASCII. *)
Definition ascii_name (name : string) : bool := all_chars is_ascii name.

Section Renaming.

(** [_to_snake_case] of a name with a character outside ASCII, as Python
    computes it. *)
Variable rename_other : string -> string.

Definition _to_snake_case (name : string) : string :=
  if ascii_name name then
    let name := sub_acronym name in
    let name := sub_camel name in
    let name := sub_separators name in
    strip "_" (lower name)
  else rename_other name.

End Renaming.

(** *** From records to a frame *)

(** The data model gives a record scalar fields only.  For a list with an
    element that is not a mapping, or with a field that holds a list or a
    mapping, the embedding does not say what pandas does: [as_records]
    answers [None] and [clean_data] ends [OutOfModel]. *)
Definition as_scalar (j : json) : option scalar :=
  match j with
  | JNull => Some SNull
  | JInt z => Some (SInt z)
  | JFloat q => Some (SFloat q)
  | JStr s => Some (SStr s)
  | _ => None
  end.

Fixpoint as_fields (d : list (string * json)) : option record :=
  match d with
  | [] => Some []
  | (k, v) :: t =>
      match as_scalar v, as_fields t with
      | Some c, Some r => Some ((k, c) :: r)
      | _, _ => None
      end
  end.

Definition as_record (j : json) : option record :=
  match j with
  | JDict d => as_fields d
  | _ => None
  end.

Fixpoint as_records (l : list json) : option (list record) :=
  match l with
  | [] => Some []
  | j :: t =>
      match as_record j, as_records t with
      | Some r, Some rs => Some (r :: rs)
      | _, _ => None
      end
  end.

Fixpoint add_keys (cols : list string) (r : record) : list string :=
  match r with
  | [] => cols
  | (k, _) :: t => add_keys (if has_label k cols then cols else (cols ++ [k])%list) t
  end.

(** [pd.DataFrame(records)]: the columns are the keys in order of first
    appearance, and a key a record lacks gives a missing cell. *)
Definition frame_of_records (records : list record) : DataFrame :=
  let cols := fold_left add_keys records [] in
  mkFrame cols
    (map (fun r => map (fun c => default SNull (dict_get c r)) cols) records).

(** [pd.DataFrame()] *)
Definition empty_frame : DataFrame := mkFrame [] [].

Definition _normalize_columns (rename_other : string -> string) (df : DataFrame)
    : DataFrame :=
  mkFrame (map (_to_snake_case rename_other) (columns df)) (rows df).

(** *** Casting, dropping, deduplicating *)

Section Cleaning.

(** [_to_snake_case] outside ASCII, as above. *)
Variable rename_other : string -> string.

(** How [pd.to_numeric] reads a string: [Some q] when the string is a
    numeral, [None] otherwise.  The parser is the library's; the theorems
    hold for every parser. *)
Variable parse_number : string -> option Q.

(** [pd.to_numeric(cell, errors="coerce")]; [None] is [NaN]. *)
Definition to_numeric (v : scalar) : option Q :=
  match v with
  | SNull => None
  | SStr s => parse_number s
  | SInt z => Some (inject_Z z)
  | SFloat q => Some q
  end.

Definition int64_min : Z := - 2 ^ 63.
Definition int64_max : Z := 2 ^ 63 - 1.

(** [.astype("Int64")] of one cell of a numeric column: a missing value
    stays missing, a whole number in range becomes an integer, anything
    else makes the cast of the column raise. *)
Definition astype_Int64 (n : option Q) : outcome scalar :=
  match n with
  | None => Returns SNull
  | Some q =>
      let d := Z.pos (Qden q) in
      let z := Qnum q / d in
      if (Qnum q mod d =? 0) && (int64_min <=? z) && (z <=? int64_max)
      then Returns (SInt z)
      else Raises (TypeError "cannot safely cast non-equivalent float64 to int64")
  end.

(** [.astype("float64")] *)
Definition astype_float64 (n : option Q) : scalar :=
  match n with
  | None => SNull
  | Some q => SFloat q
  end.

Fixpoint assign_row (col : string) (f : scalar -> outcome scalar)
    (cols : list string) (row : list scalar) : outcome (list scalar) :=
  match cols, row with
  | c :: cs, v :: vs =>
      v' ← (if String.eqb c col then f v else Returns v);
      vs' ← assign_row col f cs vs;
      Returns (v' :: vs')
  | _, _ => Returns row
  end.

(** [df[col] = f(df[col])].  When the label [col] occurs more than once,
    [df[col]] is a frame and [pd.to_numeric] raises. *)
Definition assign_column (f : scalar -> outcome scalar) (df : DataFrame)
    (col : string) : outcome DataFrame :=
  if (1 <? length (List.filter (String.eqb col) (columns df)))%nat
  then Raises (TypeError "arg must be a list, tuple, 1-d array, or Series")
  else
    rows' ← for_each (assign_row col f (columns df)) (rows df);
    Returns (mkFrame (columns df) rows').

(** [for col in cols: df[col] = f(df[col])] *)
Fixpoint assign_columns (f : scalar -> outcome scalar) (cols : list string)
    (df : DataFrame) : outcome DataFrame :=
  match cols with
  | [] => Returns df
  | c :: cs => df' ← assign_column f df c; assign_columns f cs df'
  end.

(** [needle in hay] on strings *)
Fixpoint contains (needle hay : string) : bool :=
  String.prefix needle hay ||
  match hay with
  | EmptyString => false
  | String _ t => contains needle t
  end.

Definition value_names : list string := ["value"; "val"; "quantity"; "amount"].

Definition _cast_types (df : DataFrame) : outcome DataFrame :=
  let year_cols := List.filter (contains "year") (columns df) in
  df ← assign_columns (fun v => astype_Int64 (to_numeric v)) year_cols df;
  let value_cols := List.filter (fun c => has_label c value_names) (columns df) in
  df ← assign_columns (fun v => Returns (astype_float64 (to_numeric v))) value_cols df;
  Returns df.

Definition meta_cols : list string := ["fetched_at"].

(** The cells of a row in the columns that are not [meta_cols]. *)
Fixpoint data_cells (cols : list string) (row : list scalar) : list scalar :=
  match cols, row with
  | c :: cs, v :: vs =>
      if has_label c meta_cols then data_cells cs vs else v :: data_cells cs vs
  | _, _ => []
  end.

(** [df.dropna(subset=data_cols, how="all").reset_index(drop=True)] *)
Definition _drop_empty_rows (df : DataFrame) : DataFrame :=
  mkFrame (columns df)
    (List.filter (fun row => negb (forallb is_null (data_cells (columns df) row)))
       (rows df)).

Fixpoint keep_first (seen : list (list scalar)) (rs : list (list scalar))
    : list (list scalar) :=
  match rs with
  | [] => []
  | r :: t =>
      if existsb (row_eqb r) seen then keep_first seen t
      else r :: keep_first (r :: seen) t
  end.

(** [df.drop_duplicates()]: every column counts, the first of equal rows
    stays. *)
Definition drop_duplicates (df : DataFrame) : DataFrame :=
  mkFrame (columns df) (keep_first [] (rows df)).

Fixpoint overwrite (col : string) (v : scalar) (cols : list string)
    (row : list scalar) : list scalar :=
  match cols, row with
  | c :: cs, x :: xs => (if String.eqb c col then v else x) :: overwrite col v cs xs
  | _, _ => row
  end.

(** [df[col] = v] for a scalar [v]: a new last column, or every column
    already labelled [col] overwritten. *)
Definition set_item (col : string) (v : scalar) (df : DataFrame) : DataFrame :=
  if has_label col (columns df)
  then mkFrame (columns df) (map (overwrite col v (columns df)) (rows df))
  else mkFrame (columns df ++ [col])%list (map (fun r => (r ++ [v])%list) (rows df)).

(** cleaner.py, [clean_data]; [now] is what
    [datetime.now(tz=timezone.utc).isoformat()] returns. *)
Definition clean_data (now : string) (raw : RawResponse) : outcome DataFrame :=
  match _extract_records raw with
  | [] => Returns empty_frame
  | records =>
      match as_records records with
      | None => OutOfModel
      | Some records =>
          let df := frame_of_records records in
          let df := _normalize_columns rename_other df in
          df ← _cast_types df;
          let df := _drop_empty_rows df in
          let df := drop_duplicates df in
          Returns (set_item "fetched_at" (SStr now) df)
      end
  end.

End Cleaning.

(** *** A parser of plain decimal numerals

    [parse_decimal] reads an optional sign, digits and an optional
    fraction.  It is the parser of the worked examples. *)

Fixpoint digits (acc : Z) (n : nat) (s : string) : option (Z * nat) :=
  match s with
  | EmptyString => Some (acc, n)
  | String a t =>
      if is_digit a
      then digits (10 * acc + Z.of_nat (nat_of_ascii a - 48)) (S n) t
      else None
  end.

Fixpoint split_at_dot (s : string) : string * option string :=
  match s with
  | EmptyString => (EmptyString, None)
  | String a t =>
      if Ascii.eqb a "."%char then (EmptyString, Some t)
      else let '(i, f) := split_at_dot t in (String a i, f)
  end.

Definition unsigned_decimal (s : string) : option Q :=
  let '(i, f) := split_at_dot s in
  match i with
  | EmptyString => None
  | _ =>
      match digits 0 0 i, digits 0 0 (default EmptyString f) with
      | Some (zi, _), Some (zf, n) =>
          let scale := 10 ^ Z.of_nat n in
          Some (Qred (Qmake (zi * scale + zf) (Z.to_pos scale)))
      | _, _ => None
      end
  end.

Definition parse_decimal (s : string) : option Q :=
  match s with
  | String "-" t => option_map Qopp (unsigned_decimal t)
  | String "+" t => unsigned_decimal t
  | _ => unsigned_decimal s
  end.

End Cleaner.

(** ** The world outside the process *)

Inductive http_method : Type := GET | POST.

Inductive param : Type :=
| PBool (b : bool)
| PStr (s : string).

(** A request as sent: the query parameters of a GET, the JSON body of a
    POST. *)
Record request : Type := mkRequest {
  method : http_method;
  path : string;
  payload : list (string * param)
}.

(** An [httpx.Response]: [parsed] is what [response.json()] gives, [None]
    when it raises [ValueError]; [content] stands for [response.text] too. *)
Record Response : Type := mkResponse {
  status : Z;
  content : string;
  parsed : option json
}.

(** What comes back for a request: a response, or the failure of the
    transport (an [httpx.TransportError]: connection, timeout). *)
Inductive reply : Type :=
| Answered (r : Response)
| TransportFailed (detail : string).

(** [Path(output_dir) / a / b] *)
Inductive Path : Type :=
| PathOf (s : string)
| PathJoin (p : Path) (name : string).

(** The operations on the disk.  A failure of the operating system (rights,
    space, a file where a directory is expected) is not modelled; a write
    of a frame can be refused by pandas or pyarrow ([write_error]
    below). *)
Inductive fs_event : Type :=
| Mkdir (p : Path)
| ToCsv (p : Path) (df : DataFrame)
| ToParquet (p : Path) (compression : string) (df : DataFrame).

(** The requests sent and the disk operations that succeeded, oldest
    first. *)
Record world : Type := mkWorld {
  sent : list request;
  disk : list fs_event
}.

(** What the process finds around it. [server n req] is the reply to
    [req] when [n] requests went out before it.  [token_seconds_left] is
    [exp - time.time()] when the token is a JWT with an [exp] claim.
    [rename_other] is [_to_snake_case] on a name with a character outside
    ASCII.  [write_error e] is the exception that [to_csv] or [to_parquet]
    raises for the write [e] (for [to_parquet]: an unknown codec, two
    columns with one label, a column that mixes strings and numbers),
    [None] when the write succeeds. *)
Record environment : Type := mkEnv {
  server : nat -> request -> reply;
  API_TOKEN : string;
  token_seconds_left : option Q;
  parse_number : string -> option Q;
  utcnow : world -> string;
  rename_other : string -> string;
  write_error : fs_event -> option exn
}.

Module Client.

Definition _check_token_expiry (remaining : option Q) : outcome unit :=
  match remaining with
  | None => Returns tt
  | Some r =>
      if Qle_bool r 0
      then Raises (FAOSTATAuthError "Your FAOSTAT_API_TOKEN expired")
      else Returns tt
  end.

(** [FAOSTATClient()], the constructor: no request is sent. *)
Definition FAOSTATClient (env : environment) : outcome unit :=
  if String.eqb (API_TOKEN env) ""
  then Raises (FAOSTATAuthError "FAOSTAT_API_TOKEN is not set")
  else _check_token_expiry (token_seconds_left env).

(** [httpx.Response.raise_for_status]: every status outside 2xx raises. *)
Definition raise_for_status (r : Response) : outcome unit :=
  if (200 <=? status r) && (status r <=? 299) then Returns tt
  else Raises (HTTPStatusError (status r)).

Definition _raise_for_status (r : Response) : outcome unit :=
  if status r =? 401 then Raises (FAOSTATAuthError "401 Unauthorized")
  else if status r =? 403 then Raises (FAOSTATAuthError "403 Forbidden")
  else if status r =? 429 then Raises (FAOSTATRateLimitError "429 Rate limit exceeded")
  else raise_for_status r.

(** [_retry_on_transient], on the outcome of an attempt. *)
Definition _retry_on_transient {A : Type} (o : outcome A) : bool :=
  match o with
  | Raises (TransportError _) => true
  | Raises (HTTPStatusError code) => 500 <=? code
  | _ => false
  end.

(** The end of [get] and [post], after [_raise_for_status]. *)
Definition read_body (r : Response) : json :=
  if String.eqb (content r) "" then JDict [("status", JInt (status r))]
  else
    match parsed r with
    | Some j => j
    | None => JDict [("status", JInt (status r)); ("text", JStr (content r))]
    end.

Section Network.

Context (env : environment).

(** One request on the wire.  [_throttle] only delays it. *)
Definition send (req : request) (w : world) : reply * world :=
  (server env (length (sent w)) req, mkWorld (sent w ++ [req])%list (disk w)).

Definition answer (rp : reply) : outcome json :=
  match rp with
  | TransportFailed detail => Raises (TransportError detail)
  | Answered r => _ ← _raise_for_status r; Returns (read_body r)
  end.

(** The body of [get], one attempt. *)
Definition get_once (path : string) (params : list (string * param)) (w : world)
    : outcome json * world :=
  let '(rp, w) := send (mkRequest GET path params) w in (answer rp, w).

(** The body of [post], one attempt. *)
Definition post_once (path : string) (body : list (string * param)) (w : world)
    : outcome json * world :=
  let '(rp, w) := send (mkRequest POST path body) w in (answer rp, w).

(** tenacity's [@retry(stop=stop_after_attempt(n), retry=_retry_on_transient,
    reraise=True)], with [further] attempts allowed after this one: an
    outcome the predicate rejects ends the loop, as the result or as the
    exception itself; when no attempt is left, the exception of the last
    attempt is raised again.  The waits between attempts take time only. *)
Fixpoint attempt_loop {A : Type} (further : nat) (body : world -> outcome A * world)
    (w : world) : outcome A * world :=
  let '(o, w') := body w in
  if _retry_on_transient o then
    match further with
    | O => (o, w')
    | S k => attempt_loop k body w'
    end
  else (o, w').

Definition retry {A : Type} (stop : nat) (body : world -> outcome A * world)
    : world -> outcome A * world :=
  attempt_loop (stop - 1) body.

Definition stop_after_attempt : nat := 3.

Definition get (path : string) (params : list (string * param)) (w : world)
    : outcome json * world :=
  retry stop_after_attempt (get_once path params) w.

Definition post (path : string) (body : list (string * param)) (w : world)
    : outcome json * world :=
  retry stop_after_attempt (post_once path body) w.

End Network.

(** *** The rate limiter

    Times are exact rationals, in seconds. *)

Definition _RATE_LIMIT : Q := 2%Q.
Definition _MIN_INTERVAL : Q := (1 / _RATE_LIMIT)%Q.

(** The argument of [asyncio.sleep] in [_throttle], when it sleeps:
    [last] is [_last_request_time] and [now] the first reading of
    [time.monotonic()]. *)
Definition throttle_wait (last now : Q) : option Q :=
  let elapsed := (now - last)%Q in
  if Qle_bool _MIN_INTERVAL elapsed then None
  else Some (_MIN_INTERVAL - elapsed)%Q.

(** [_throttle], with the lock held: the new [_last_request_time], which
    is the second reading of the clock.  [lag] is the time that passes
    between the two readings beyond the sleep asked for. *)
Definition _throttle (last now lag : Q) : Q :=
  match throttle_wait last now with
  | Some wait => (now + wait + lag)%Q
  | None => (now + lag)%Q
  end.

(** The values of [_last_request_time] after each of a series of passes,
    one pass per pair of a first reading and a lag. *)
Fixpoint permits (last : Q) (passes : list (Q * Q)) : list Q :=
  match passes with
  | [] => []
  | (now, lag) :: rest =>
      let last := _throttle last now lag in
      last :: permits last rest
  end.

End Client.

Module Endpoints.

(** The filters of a query; the keys of the [filters] dict that
    [get_data] accepts as code lists or code sets. *)
Record Filters : Type := mkFilters {
  area : option string;
  element : option string;
  item : option string;
  year : option string;
  area_cs : option string;
  element_cs : option string;
  item_cs : option string;
  year_cs : option string
}.

Definition no_filters : Filters :=
  mkFilters None None None None None None None None.

Definition present (key : string) (val : option string) : list (string * param) :=
  match val with
  | Some v => [(key, PStr v)]
  | None => []
  end.

Definition filter_items (f : Filters) : list (string * param) :=
  (present "area" (area f) ++ present "element" (element f) ++
   present "item" (item f) ++ present "year" (year f) ++
   present "area_cs" (area_cs f) ++ present "element_cs" (element_cs f) ++
   present "item_cs" (item_cs f) ++ present "year_cs" (year_cs f))%list.

Section Calls.

Context (env : environment).

Definition get_data (domain_code lang : string) (f : Filters) (w : world)
    : outcome json * world :=
  let params :=
    ([("show_codes", PBool true); ("show_unit", PBool true);
      ("show_flags", PBool true); ("null_values", PBool false);
      ("output_type", PStr "objects")] ++ filter_items f)%list in
  Client.get env ("/" ++ lang ++ "/data/" ++ domain_code) params w.

Definition get_datasize (body : list (string * param)) (lang : string) (w : world)
    : outcome json * world :=
  Client.post env ("/" ++ lang ++ "/datasize/") body w.

End Calls.

End Endpoints.

Module Exporter.

Definition perform (e : fs_event) (w : world) : world :=
  mkWorld (sent w) (disk w ++ [e])%list.

(** What follows a call that returned. *)
Definition and_then {A B : Type} (c : outcome A * world)
    (k : A -> world -> outcome B * world) : outcome B * world :=
  match c with
  | (Returns a, w) => k a w
  | (Raises e, w) => (Raises e, w)
  | (OutOfModel, w) => (OutOfModel, w)
  end.

Section Writing.

(** The exception of a write that pandas or pyarrow refuses. *)
Variable write_error : fs_event -> option exn.

(** [df.to_csv(path, ...)], [df.to_parquet(path, ...)]: a refused write
    raises and leaves no entry on the disk. *)
Definition write (e : fs_event) (w : world) : outcome unit * world :=
  match write_error e with
  | Some x => (Raises x, w)
  | None => (Returns tt, perform e w)
  end.

(** exporter.py, [export]: nothing is caught and nothing is removed when a
    write raises. *)
Definition export (df : DataFrame) (domain_code output_dir : string)
    (to_csv to_parquet : bool) (parquet_compression : string) (w : world)
    : outcome (gmap string Path) * world :=
  if empty df then (Raises (ValueError "nothing to export"), w)
  else
    let domain_dir := PathJoin (PathOf output_dir) domain_code in
    let w := perform (Mkdir domain_dir) w in
    let written : gmap string Path := ∅ in
    and_then
      (if to_csv then
         let csv_path := PathJoin domain_dir "data.csv" in
         and_then (write (ToCsv csv_path df) w)
           (fun _ w => (Returns (<["csv" := csv_path]> written), w))
       else (Returns written, w))
      (fun written w =>
         if to_parquet then
           let parquet_path := PathJoin domain_dir "data.parquet" in
           and_then (write (ToParquet parquet_path parquet_compression df) w)
             (fun _ w => (Returns (<["parquet" := parquet_path]> written), w))
         else (Returns written, w)).

Section Partitioned.

(** [df.groupby(col)] as pandas computes it: the keys with their groups,
    in the order of iteration; and [str] of a key inside an f-string. *)
Variable groupby : string -> DataFrame -> outcome (list (scalar * DataFrame)).
Variable format_value : scalar -> string.

(** The loop of [export_partitioned] over the groups left, with the paths
    [written] so far. *)
Fixpoint partition_loop (base_dir : Path) (partition_col parquet_compression : string)
    (groups : list (scalar * DataFrame)) (written : list Path) (w : world)
    : outcome (list Path) * world :=
  match groups with
  | [] => (Returns written, w)
  | (value, group) :: rest =>
      let part_dir := PathJoin base_dir (partition_col ++ "=" ++ format_value value) in
      let w := perform (Mkdir part_dir) w in
      let path := PathJoin part_dir "data.parquet" in
      and_then (write (ToParquet path parquet_compression group) w)
        (fun _ w =>
           partition_loop base_dir partition_col parquet_compression rest
             (written ++ [path])%list w)
  end.

(** exporter.py, [export_partitioned] *)
Definition export_partitioned (df : DataFrame) (domain_code partition_col
    output_dir parquet_compression : string) (w : world)
    : outcome (list Path) * world :=
  if empty df then (Raises (ValueError "nothing to export"), w)
  else if negb (has_label partition_col (columns df))
  then (Raises (ValueError "Partition column not found in DataFrame"), w)
  else
    let base_dir := PathJoin (PathOf output_dir) domain_code in
    match groupby partition_col df with
    | Returns groups =>
        partition_loop base_dir partition_col parquet_compression groups [] w
    | Raises e => (Raises e, w)
    | OutOfModel => (OutOfModel, w)
    end.

End Partitioned.

End Writing.

End Exporter.

Module Pipeline.

Import Endpoints.

(** pipeline.py, [_response_has_data]; the argument is annotated [Any]. *)
Definition _response_has_data (raw : json) : bool :=
  match raw with
  | JNull => false
  | JList l => (0 <? length l)%nat
  | JDict d =>
      match first_list wrapper_keys d with
      | Some l => (0 <? length l)%nat
      | None => false
      end
  | _ => false
  end.

Section Orchestration.

Context (env : environment).

(** pipeline.py, [run_pipeline].  The console and the spinner are left
    out. *)
Definition run_pipeline (domain_code lang output_dir : string)
    (to_csv to_parquet : bool) (parquet_compression : string)
    (filters : Filters) (check_size_first : bool) (w : world)
    : outcome (gmap string Path) * world :=
  match Client.FAOSTATClient env with
  | Returns _ =>
      let w :=
        if check_size_first then
          (* try: ... except Exception: pass *)
          let size_payload := ("domain_code", PStr domain_code) :: filter_items filters in
          snd (get_datasize env size_payload lang w)
        else w in
      let '(fetched, w) := get_data env domain_code lang filters w in
      match fetched with
      | Returns raw =>
          if negb (_response_has_data raw)
          then (Raises (ValueError "No records returned for domain"), w)
          else
            match raw_of_json raw with
            | Some raw =>
                match Cleaner.clean_data (rename_other env) (parse_number env)
                        (utcnow env w) raw with
                | Returns df =>
                    if empty df
                    then (Raises (ValueError "No usable records after cleaning"), w)
                    else Exporter.export (write_error env) df domain_code
                           output_dir to_csv to_parquet parquet_compression w
                | Raises e => (Raises e, w)
                | OutOfModel => (OutOfModel, w)
                end
            | None => (OutOfModel, w)
            end
      | Raises e => (Raises e, w)
      | OutOfModel => (OutOfModel, w)
      end
  | Raises e => (Raises e, w)
  | OutOfModel => (OutOfModel, w)
  end.

(** The loop of [run_pipeline_batch] over the codes left, with the
    [results] so far: [try: ... results[code] = written ... except
    Exception]. *)
Fixpoint batch_loop (run : string -> world -> outcome (gmap string Path) * world)
    (domain_codes : list string) (results : gmap string (gmap string Path))
    (w : world) : outcome (gmap string (gmap string Path)) * world :=
  match domain_codes with
  | [] => (Returns results, w)
  | code :: rest =>
      match run code w with
      | (Returns written, w) => batch_loop run rest (<[code := written]> results) w
      | (Raises _, w) => batch_loop run rest results w
      | (OutOfModel, w) => (OutOfModel, w)
      end
  end.

(** pipeline.py, [run_pipeline_batch] *)
Definition run_pipeline_batch (domain_codes : list string) (lang output_dir : string)
    (to_csv to_parquet : bool) (parquet_compression : string)
    (filters : Filters) (w : world)
    : outcome (gmap string (gmap string Path)) * world :=
  batch_loop
    (fun code => run_pipeline code lang output_dir to_csv to_parquet
                   parquet_compression filters true)
    domain_codes ∅ w.

End Orchestration.

End Pipeline.

Module Cli.

Import Endpoints.

(** [_handle_errors]: every exception ends as [click.Abort]. *)
Definition _handle_errors {A : Type} (r : outcome A * world) : outcome A * world :=
  match r with
  | (Raises _, w) => (Raises ClickAbort, w)
  | _ => r
  end.

(** [if v: filters[k] = v] *)
Definition given (v : option string) : option string :=
  match v with
  | Some EmptyString => None
  | _ => v
  end.

(** cli.py, [_extract_list]; the warning it prints is left out. *)
Definition _extract_list (response : json) (fallback_keys : list string) : list json :=
  match response with
  | JList l => l
  | JDict d =>
      match first_list fallback_keys d with
      | Some l => l
      | None => []
      end
  | _ => []
  end.

Section Commands.

Context (env : environment).

(** cli.py, the command [fetch]; [domain_codes] is not empty
    ([required=True]). *)
Definition fetch (domain_codes : list string) (lang output : string)
    (no_csv no_parquet : bool) (compression : string)
    (area element item year : option string) (w : world) : outcome unit * world :=
  _handle_errors
    (let filters :=
       mkFilters (given area) (given element) (given item) (given year)
         None None None None in
     let to_csv := negb no_csv in
     let to_parquet := negb no_parquet in
     if negb to_csv && negb to_parquet then (Raises ClickAbort, w)
     else
       match domain_codes with
       | [code] =>
           let '(o, w) :=
             Pipeline.run_pipeline env code lang output to_csv to_parquet
               compression filters true w in
           (_ ← o; Returns tt, w)
       | _ =>
           let '(o, w) :=
             Pipeline.run_pipeline_batch env domain_codes lang output to_csv
               to_parquet compression filters w in
           (_ ← o; Returns tt, w)
       end).

End Commands.

End Cli.

(** ** Predicates of the statements *)

(** A response is enveloped when it is a list, or a mapping that holds a
    list under one of the wrapper keys. *)
Definition enveloped (raw : RawResponse) : Prop :=
  match raw with
  | RList _ => True
  | RDict d => exists k l, In k wrapper_keys /\ dict_get k d = Some (JList l)
  end.

(** A call through the client, by method, and one attempt of it. *)
Definition call (env : environment) (m : http_method)
    : string -> list (string * param) -> world -> outcome json * world :=
  match m with
  | GET => Client.get env
  | POST => Client.post env
  end.

Definition once (env : environment) (m : http_method)
    : string -> list (string * param) -> world -> outcome json * world :=
  match m with
  | GET => Client.get_once env
  | POST => Client.post_once env
  end.

(** A transient failure: the transport failed, or the status is 500 or
    more. *)
Definition transient (rp : reply) : bool :=
  match rp with
  | TransportFailed _ => true
  | Answered r => 500 <=? status r
  end.

(** The world after [k] more requests [req]. *)
Definition after_requests (k : nat) (req : request) (w : world) : world :=
  mkWorld (sent w ++ repeat req k)%list (disk w).

Definition is_auth (e : exn) : bool :=
  match e with
  | FAOSTATAuthError _ => true
  | _ => false
  end.

Definition is_rate_limited (e : exn) : bool :=
  match e with
  | FAOSTATRateLimitError _ => true
  | _ => false
  end.

(** The runs of a batch, as the specification words them: every domain
    code in turn, each from the world the one before left, whatever the
    outcome of the one before; the log of the outcomes and the last
    world. *)
Fixpoint sequential_runs {A : Type} (run : string -> world -> outcome A * world)
    (codes : list string) (w : world) : list (string * outcome A) * world :=
  match codes with
  | [] => ([], w)
  | code :: rest =>
      let '(o, w) := run code w in
      let '(log, w) := sequential_runs run rest w in
      ((code, o) :: log, w)
  end.

(** What the last successful run of [code] in a log returned. *)
Fixpoint last_success {A : Type} (code : string) (log : list (string * outcome A))
    : option A :=
  match log with
  | [] => None
  | (c, o) :: rest =>
      match last_success code rest with
      | Some a => Some a
      | None =>
          match o with
          | Returns a => if String.eqb c code then Some a else None
          | _ => None
          end
      end
  end.

Definition modelled {A : Type} (o : outcome A) : Prop := o <> OutOfModel.

Definition is_modelled {A : Type} (o : outcome A) : bool :=
  match o with
  | OutOfModel => false
  | _ => true
  end.

(** The field names of the records of a response. *)
Definition keys_of (j : json) : list string :=
  match j with
  | JDict d => map fst d
  | _ => []
  end.

Definition field_names (raw : RawResponse) : list string :=
  flat_map keys_of (Cleaner._extract_records raw).

(** A row is null in every field that is not provenance. *)
Definition all_null (cols : list string) (row : list scalar) : bool :=
  forallb is_null (Cleaner.data_cells cols row).

(** Two rows agree on every field that is not provenance. *)
Definition rows_agree (cols : list string) (r1 r2 : list scalar) : bool :=
  row_eqb (Cleaner.data_cells cols r1) (Cleaner.data_cells cols r2).

(** Every row has one cell per column. *)
Definition well_formed (df : DataFrame) : Prop :=
  Forall (fun row => length row = length (columns df)) (rows df).

(** No ASCII capital; no whitespace and no hyphen. *)
Definition no_upper (a : ascii) : bool := negb (Cleaner.is_upper a).
Definition no_separator (a : ascii) : bool := negb (Cleaner.is_separator a).

Fixpoint ends_with (c : ascii) (s : string) : bool :=
  match s with
  | EmptyString => false
  | String a EmptyString => Ascii.eqb a c
  | String _ t => ends_with c t
  end.

(** The cells of a frame, each with the label of its column. *)
Definition cells (df : DataFrame) : list (string * scalar) :=
  flat_map (combine (columns df)) (rows df).

Definition int_or_null (v : scalar) : bool :=
  match v with
  | SNull | SInt _ => true
  | _ => false
  end.

Definition float_or_null (v : scalar) : bool :=
  match v with
  | SNull | SFloat _ => true
  | _ => false
  end.

(** The files [export] writes for a frame, in the order it writes
    them. *)
Definition exported_files (df : DataFrame) (domain_dir : Path)
    (to_csv to_parquet : bool) (compression : string) : list fs_event :=
  ((if to_csv then [ToCsv (PathJoin domain_dir "data.csv") df] else []) ++
   (if to_parquet
    then [ToParquet (PathJoin domain_dir "data.parquet") compression df]
    else []))%list.

(** What [export] leaves behind when it raises [x] in a write: the
    directory when data.csv is refused; the directory, with data.csv in it
    if CSV was asked for, when data.parquet is refused. *)
Definition refused_export (write_error : fs_event -> option exn) (df : DataFrame)
    (domain_dir : Path) (to_csv to_parquet : bool) (compression : string)
    (x : exn) (files : list fs_event) : Prop :=
  let csv := ToCsv (PathJoin domain_dir "data.csv") df in
  let parquet := ToParquet (PathJoin domain_dir "data.parquet") compression df in
  (to_csv = true /\ write_error csv = Some x /\ files = [Mkdir domain_dir]) \/
  (to_parquet = true /\ write_error parquet = Some x /\
   (to_csv = true -> write_error csv = None) /\
   files = Mkdir domain_dir :: (if to_csv then [csv] else [])).

(** The request [get_data] sends, and the one [get_datasize] sends for
    [run_pipeline]. *)
Definition data_request (domain_code lang : string) (f : Endpoints.Filters) : request :=
  mkRequest GET ("/" ++ lang ++ "/data/" ++ domain_code)
    ([("show_codes", PBool true); ("show_unit", PBool true);
      ("show_flags", PBool true); ("null_values", PBool false);
      ("output_type", PStr "objects")] ++ Endpoints.filter_items f)%list.

Definition size_request (domain_code lang : string) (f : Endpoints.Filters) : request :=
  mkRequest POST ("/" ++ lang ++ "/datasize/")
    (("domain_code", PStr domain_code) :: Endpoints.filter_items f).

(** ** Worked inputs *)

Module Examples.

(** Scenario A: [{"data":[{"Year":"2020","Value":"5.5"},{"Year":"x","Value":null}]}] *)
Definition scenario_A : RawResponse :=
  RDict [("data", JList [JDict [("Year", JStr "2020"); ("Value", JStr "5.5")];
                         JDict [("Year", JStr "x"); ("Value", JNull)]])].

(** What [FAOSTATClient.get] returns for a 2xx answer without a body. *)
Definition status_only : RawResponse := RDict [("status", JInt 200)].

(** Four records: the second repeats the first, with the numbers as
    numbers; the third has no number at all. *)
Definition repeated : RawResponse :=
  RList [JDict [("Year", JStr "2020"); ("Value", JStr "5.5")];
         JDict [("Year", JInt 2020); ("Value", JFloat (11 # 2))];
         JDict [("Year", JStr "x"); ("Value", JNull)];
         JDict [("Year", JStr "2021"); ("Value", JStr "n/a")]].

(** Two records that differ in a field named [fetched_at] only. *)
Definition stamped_twice : RawResponse :=
  RList [JDict [("a", JInt 1); ("fetched_at", JStr "x")];
         JDict [("a", JInt 1); ("fetched_at", JStr "y")]].

(** A server that estimates two rows, has nothing for the domain [B] and
    answers scenario A for every other domain. *)
Definition demo_server (n : nat) (req : request) : reply :=
  match method req with
  | POST => Answered (mkResponse 200 "{}" (Some (JDict [("count", JInt 2)])))
  | GET =>
      if String.eqb (path req) "/en/data/B"
      then Answered (mkResponse 200 "[]" (Some (JList [])))
      else Answered (mkResponse 200 "{}" (Some (json_of_raw scenario_A)))
  end.

(** The names of the examples are ASCII, so any renaming outside ASCII
    does; every write is accepted unless said otherwise. *)
Definition as_is (name : string) : string := name.

Definition accepted (e : fs_event) : option exn := None.

(** Parquet writes that pyarrow refuses. *)
Definition no_parquet (e : fs_event) : option exn :=
  match e with
  | ToParquet _ _ _ => Some (ValueError "Duplicate column names found")
  | _ => None
  end.

Definition demo_env : environment :=
  mkEnv demo_server "token" None Cleaner.parse_decimal
    (fun _ => "2026-01-01T00:00:00+00:00") as_is accepted.

(** The same, with Parquet writes refused. *)
Definition refusing_env : environment :=
  mkEnv demo_server "token" None Cleaner.parse_decimal
    (fun _ => "2026-01-01T00:00:00+00:00") as_is no_parquet.

(** A server that fails twice and then answers. *)
Definition flaky_server (n : nat) (req : request) : reply :=
  match n with
  | O => TransportFailed "timeout"
  | 1%nat => Answered (mkResponse 503 "busy" None)
  | _ => Answered (mkResponse 200 "[]" (Some (JList [])))
  end.

Definition flaky_env : environment :=
  mkEnv flaky_server "token" None Cleaner.parse_decimal (fun _ => "")
    as_is accepted.

(** A server that rejects the token. *)
Definition strict_env : environment :=
  mkEnv (fun _ _ => Answered (mkResponse 401 "no" None)) "token" None
    Cleaner.parse_decimal (fun _ => "")
    as_is accepted.

(** A server that reports a breach of its rate limit. *)
Definition limited_env : environment :=
  mkEnv (fun _ _ => Answered (mkResponse 429 "slow down" None)) "token" None
    Cleaner.parse_decimal (fun _ => "")
    as_is accepted.

(** A server that does not know the path. *)
Definition missing_env : environment :=
  mkEnv (fun _ _ => Answered (mkResponse 404 "not found" None)) "token" None
    Cleaner.parse_decimal (fun _ => "")
    as_is accepted.

(** A server that answers 200 without a body. *)
Definition silent_env : environment :=
  mkEnv (fun _ _ => Answered (mkResponse 200 "" None)) "token" None
    Cleaner.parse_decimal (fun _ => "")
    as_is accepted.

(** No token in the environment. *)
Definition anonymous_env : environment :=
  mkEnv demo_server "" None Cleaner.parse_decimal (fun _ => "") as_is
    accepted.

Definition fresh : world := mkWorld [] [].

Definition one_row : DataFrame := mkFrame ["year"] [[SInt 2020]].

End Examples.

(** * Properties *)

(** ** Envelope extraction and the presence check *)

Lemma first_list_none (keys : list string) (d : list (string * json)) :
  (forall k, In k keys -> forall l, dict_get k d <> Some (JList l)) ->
  first_list keys d = None.
Proof.
  induction keys as [|k ks IH]; intros H; [reflexivity|].
  simpl. unfold holds_list.
  destruct (dict_get k d) as [[]|] eqn:E; try (apply IH; intros; apply H; now right).
  exact (False_ind _ (H k (or_introl eq_refl) _ E)).
Qed.

Lemma first_list_found (before after : list string) (key : string)
    (d : list (string * json)) (l : list json) :
  (forall k, In k before -> forall l', dict_get k d <> Some (JList l')) ->
  dict_get key d = Some (JList l) ->
  first_list (before ++ key :: after) d = Some l.
Proof.
  induction before as [|k ks IH]; intros Hb Hk; simpl.
  - unfold holds_list. now rewrite Hk.
  - unfold holds_list at 1.
    destruct (dict_get k d) as [[]|] eqn:E; try (apply IH; [intros; apply Hb; now right | assumption]).
    exact (False_ind _ (Hb k (or_introl eq_refl) _ E)).
Qed.

Lemma first_list_some (keys : list string) (d : list (string * json)) (l : list json) :
  first_list keys d = Some l ->
  exists k, In k keys /\ dict_get k d = Some (JList l).
Proof.
  induction keys as [|k ks IH]; simpl; [discriminate|].
  unfold holds_list at 1.
  destruct (dict_get k d) as [[]|] eqn:E; intros H;
    try (destruct (IH H) as (k' & ? & ?); exists k'; split; [now right | assumption]).
  injection H as <-. exists k. split; [now left | assumption].
Qed.

(** C6: envelope extraction is a total, deterministic function of the raw
    response: a list is returned unchanged; in a mapping, the first of the
    keys data, Data, items, results whose value is a list gives the
    result; with no such key, a non-empty mapping is wrapped as the single
    element of the result, and the empty mapping gives the empty
    sequence. *)
Theorem extract_records_total :
  (forall raw, exists records, Cleaner._extract_records raw = records /\
     forall records', Cleaner._extract_records raw = records' -> records' = records) /\
  (forall l, Cleaner._extract_records (RList l) = l) /\
  (forall d before key after l,
     wrapper_keys = (before ++ key :: after)%list ->
     (forall k, In k before -> forall l', dict_get k d <> Some (JList l')) ->
     dict_get key d = Some (JList l) ->
     Cleaner._extract_records (RDict d) = l) /\
  (forall d,
     (forall k, In k wrapper_keys -> forall l, dict_get k d <> Some (JList l)) ->
     d <> [] ->
     Cleaner._extract_records (RDict d) = [JDict d]) /\
  (forall d,
     (forall k, In k wrapper_keys -> forall l, dict_get k d <> Some (JList l)) ->
     d = [] ->
     Cleaner._extract_records (RDict d) = []).
Proof.
  split; [|split; [|split; [|split]]].
  - intros raw. exists (Cleaner._extract_records raw). split; [reflexivity|].
    intros ? <-. reflexivity.
  - reflexivity.
  - intros d before key after l Hk Hb Hl. unfold Cleaner._extract_records.
    rewrite Hk. now rewrite (first_list_found before after key d l Hb Hl).
  - intros d Hn Hd. unfold Cleaner._extract_records.
    rewrite (first_list_none _ _ Hn). destruct d; [contradiction|reflexivity].
  - intros d Hn ->. reflexivity.
Qed.

Lemma extract_records_total_witness :
  Cleaner._extract_records
    (RDict [("data", JStr "none"); ("items", JList [JNull]); ("results", JList [])])
  = [JNull] /\
  Cleaner._extract_records Examples.status_only = [JDict [("status", JInt 200)]] /\
  Cleaner._extract_records (RDict []) = [].
Proof.
  destruct extract_records_total as (_ & _ & Hkey & Hwrap & Hempty).
  split; [|split].
  - apply (Hkey _ ["data"; "Data"] "items" ["results"]).
    + reflexivity.
    + intros k [<-|[<-|[]]] l'; vm_compute; discriminate.
    + reflexivity.
  - apply Hwrap.
    + intros k [<-|[<-|[<-|[<-|[]]]]] l; vm_compute; discriminate.
    + discriminate.
  - apply Hempty.
    + intros k _ l. vm_compute. discriminate.
    + reflexivity.
Defined.

Lemma positive_length {A : Type} (l : list A) :
  (0 <? length l)%nat = true <-> l <> [].
Proof.
  destruct l; simpl.
  - split; [discriminate|congruence].
  - split; [discriminate|reflexivity].
Qed.

(** C2, as stated, fails: for the mapping [{"status": 200}] the presence
    check answers false, and extraction yields one record. *)
Lemma has_data_iff_records_counterexample :
  ~ (Pipeline._response_has_data (json_of_raw Examples.status_only) = true <->
     Cleaner._extract_records Examples.status_only <> []).
Proof.
  intros [_ H]. vm_compute in H.
  assert (E : false = true) by (apply H; discriminate). discriminate E.
Qed.

(** C2, amended: the presence check answers true exactly when the response
    is enveloped and extraction yields at least one record. *)
Theorem has_data_iff_enveloped_records (raw : RawResponse) :
  Pipeline._response_has_data (json_of_raw raw) = true <->
  enveloped raw /\ Cleaner._extract_records raw <> [].
Proof.
  destruct raw as [l|d];
    unfold Pipeline._response_has_data, Cleaner._extract_records, json_of_raw, enveloped.
  - rewrite positive_length. tauto.
  - destruct (first_list wrapper_keys d) as [l|] eqn:E.
    + destruct (first_list_some _ _ _ E) as (k & Hin & Hk).
      rewrite positive_length. split; [|tauto].
      intros H. split; [now exists k, l|exact H].
    + split; [discriminate|]. intros [(k & l & Hin & Hk) _].
      exfalso.
      assert (Hx : exists l', first_list wrapper_keys d = Some l').
      { revert Hin. generalize wrapper_keys as keys.
        induction keys as [|k0 ks IH]; [intros []|].
        intros [->|Hin]; simpl; unfold holds_list at 1.
        - rewrite Hk. eauto.
        - destruct (dict_get k0 d) as [[]|]; eauto. }
      destruct Hx as [l' Hx]. rewrite Hx in E. discriminate.
Qed.

(** ** Scenario A *)

(** Replace a closed term by its value. *)
Ltac evaluate t := let v := eval vm_compute in t in change t with v.

(** C1, as stated, fails: with a parser of decimal numerals, cleaning
    scenario A does not give a frame of two rows. *)
Lemma scenario_A_two_rows_counterexample :
  ~ (exists df,
       Cleaner.clean_data Examples.as_is Cleaner.parse_decimal "2026-01-01T00:00:00+00:00"
         Examples.scenario_A = Returns df /\
       length (rows df) = 2%nat).
Proof.
  intros (df & H & Hlen). vm_compute in H. injection H as <-.
  vm_compute in Hlen. discriminate Hlen.
Qed.

(** C1, amended: cleaning scenario A gives a frame of exactly one row,
    with year = [2020], value = [5.5] and one fetched_at column; the
    second record is dropped, because after the casts ("x" is no number)
    it is null in every column that is not provenance. *)
Theorem scenario_A_one_row (other : string -> string)
    (parse : string -> option Q) (now : string) :
  parse "2020" = Some (2020 # 1) ->
  parse "5.5" = Some (11 # 2) ->
  parse "x" = None ->
  Cleaner.clean_data other parse now Examples.scenario_A =
  Returns (mkFrame ["year"; "value"; "fetched_at"]
                   [[SInt 2020; SFloat (11 # 2); SStr now]]).
Proof.
  intros Hyear Hvalue Hx.
  unfold Cleaner.clean_data.
  evaluate (Cleaner._extract_records Examples.scenario_A). cbv beta iota.
  match goal with
  | |- context [Cleaner.as_records ?l] => evaluate (Cleaner.as_records l)
  end.
  cbv beta iota zeta.
  match goal with
  | |- context [Cleaner._normalize_columns _ ?df] =>
      evaluate (Cleaner._normalize_columns other df)
  end.
  unfold Cleaner._cast_types, Cleaner.assign_columns, Cleaner.assign_column.
  simpl. rewrite Hyear, Hx. simpl. rewrite Hvalue. reflexivity.
Qed.

Lemma scenario_A_one_row_witness :
  Cleaner.clean_data Examples.as_is Cleaner.parse_decimal "2026-01-01T00:00:00+00:00"
    Examples.scenario_A =
  Returns (mkFrame ["year"; "value"; "fetched_at"]
                   [[SInt 2020; SFloat (11 # 2); SStr "2026-01-01T00:00:00+00:00"]]).
Proof.
  apply scenario_A_one_row; reflexivity.
Defined.

(** ** The retrying client *)

Lemma answer_transient (rp : reply) :
  transient rp = true ->
  Client._retry_on_transient (Client.answer rp) = true /\
  exists e, Client.answer rp = Raises e.
Proof.
  destruct rp as [r|detail]; simpl; [|eauto].
  intros H. apply Z.leb_le in H.
  unfold Client._raise_for_status, Client.raise_for_status.
  destruct (Z.eqb_spec (status r) 401); [lia|].
  destruct (Z.eqb_spec (status r) 403); [lia|].
  destruct (Z.eqb_spec (status r) 429); [lia|].
  destruct (Z.leb_spec 200 (status r)); [|lia].
  destruct (Z.leb_spec (status r) 299); [lia|].
  simpl. split; [now apply Z.leb_le | eauto].
Qed.

Lemma answer_settled (rp : reply) :
  transient rp = false ->
  Client._retry_on_transient (Client.answer rp) = false.
Proof.
  destruct rp as [r|detail]; simpl; [|discriminate].
  intros H.
  unfold Client._raise_for_status, Client.raise_for_status.
  destruct (status r =? 401); [reflexivity|].
  destruct (status r =? 403); [reflexivity|].
  destruct (status r =? 429); [reflexivity|].
  destruct ((200 <=? status r) && (status r <=? 299)); [reflexivity|exact H].
Qed.

Lemma once_eq (env : environment) (m : http_method) (path : string)
    (payload : list (string * param)) (w : world) :
  once env m path payload w =
  (Client.answer (server env (length (sent w)) (mkRequest m path payload)),
   after_requests 1 (mkRequest m path payload) w).
Proof. destruct m; reflexivity. Qed.

Lemma call_eq (env : environment) (m : http_method) (path : string)
    (payload : list (string * param)) :
  call env m path payload = Client.attempt_loop 2 (once env m path payload).
Proof. destruct m; reflexivity. Qed.

Lemma after_requests_more (j k : nat) (req : request) (w : world) :
  after_requests j req (after_requests k req w) = after_requests (k + j) req w.
Proof.
  unfold after_requests. simpl. now rewrite <- app_assoc, repeat_app.
Qed.

Lemma after_requests_sent (k : nat) (req : request) (w : world) :
  length (sent (after_requests k req w)) = (length (sent w) + k)%nat.
Proof. simpl. now rewrite length_app, repeat_length. Qed.

(** An attempt whose outcome is not transient ends the loop. *)
Lemma attempt_loop_settled (env : environment) (m : http_method) (path : string)
    (payload : list (string * param)) (further : nat) (w : world) :
  transient (server env (length (sent w)) (mkRequest m path payload)) = false ->
  Client.attempt_loop further (once env m path payload) w =
  (Client.answer (server env (length (sent w)) (mkRequest m path payload)), after_requests 1 (mkRequest m path payload) w).
Proof.
  intros H. destruct further; simpl; rewrite once_eq;
    now rewrite (answer_settled _ H).
Qed.

(** A transient outcome with attempts left leads to the next attempt. *)
Lemma attempt_loop_again (env : environment) (m : http_method) (path : string)
    (payload : list (string * param)) (further : nat) (w : world) :
  transient (server env (length (sent w)) (mkRequest m path payload)) = true ->
  Client.attempt_loop (S further) (once env m path payload) w =
  Client.attempt_loop further (once env m path payload) (after_requests 1 (mkRequest m path payload) w).
Proof.
  intros H. simpl. rewrite once_eq.
  now rewrite (proj1 (answer_transient _ H)).
Qed.

(** The last attempt surfaces its outcome whatever it is. *)
Lemma attempt_loop_last (env : environment) (m : http_method) (path : string)
    (payload : list (string * param)) (w : world) :
  Client.attempt_loop 0 (once env m path payload) w =
  (Client.answer (server env (length (sent w)) (mkRequest m path payload)), after_requests 1 (mkRequest m path payload) w).
Proof.
   simpl. rewrite once_eq.
  now destruct (Client._retry_on_transient _).
Qed.

(** C4: a call through the client ([get] or [post]) makes one, two or
    three attempts; after two transient failures (transport failure, or
    status 500 or more) a third attempt is made and its outcome is the
    outcome of the call: when it fails too, its exception is raised as it
    is, and when it succeeds, the call returns its result, in both cases
    after exactly three requests. *)
Theorem transient_failures_retried (env : environment) (m : http_method)
    (path : string) (payload : list (string * param)) (w : world) :
  let req := mkRequest m path payload in
  let n := length (sent w) in
  (exists k, (1 <= k <= 3)%nat /\
     snd (call env m path payload w) = after_requests k req w) /\
  (transient (server env n req) = true ->
   transient (server env (n + 1) req) = false ->
   call env m path payload w =
   (Client.answer (server env (n + 1) req), after_requests 2 req w)) /\
  (transient (server env n req) = true ->
   transient (server env (n + 1) req) = true ->
   call env m path payload w =
   (Client.answer (server env (n + 2) req), after_requests 3 req w)) /\
  (transient (server env n req) = true ->
   transient (server env (n + 1) req) = true ->
   transient (server env (n + 2) req) = true ->
   exists e, Client.answer (server env (n + 2) req) = Raises e /\
     call env m path payload w = (Raises e, after_requests 3 req w)) /\
  (forall r,
   transient (server env n req) = true ->
   transient (server env (n + 1) req) = true ->
   server env (n + 2) req = Answered r ->
   200 <= status r <= 299 ->
   call env m path payload w = (Returns (Client.read_body r), after_requests 3 req w)).
Proof.
  intros req n. rewrite call_eq.
  assert (H2 : transient (server env n req) = true ->
               transient (server env (n + 1) req) = false ->
               Client.attempt_loop 2 (once env m path payload) w =
               (Client.answer (server env (n + 1) req), after_requests 2 req w)).
  { subst req n. intros T1 T2. rewrite attempt_loop_again by exact T1.
    rewrite attempt_loop_settled; rewrite after_requests_sent; [|exact T2].
    now rewrite after_requests_more. }
  assert (H3 : transient (server env n req) = true ->
               transient (server env (n + 1) req) = true ->
               Client.attempt_loop 2 (once env m path payload) w =
               (Client.answer (server env (n + 2) req), after_requests 3 req w)).
  { subst req n. intros T1 T2. rewrite attempt_loop_again by exact T1.
    rewrite attempt_loop_again by (rewrite after_requests_sent; exact T2).
    rewrite attempt_loop_last, !after_requests_more, !after_requests_sent.
    now replace (length (sent w) + 1 + 1)%nat with (length (sent w) + 2)%nat by lia. }
  split; [|split; [exact H2|split; [exact H3|split]]].
  - destruct (transient (server env n req)) eqn:T1.
    + destruct (transient (server env (n + 1) req)) eqn:T2.
      * exists 3%nat. split; [lia|]. now rewrite H3.
      * exists 2%nat. split; [lia|]. now rewrite H2.
    + exists 1%nat. split; [lia|]. subst req n.
      now rewrite attempt_loop_settled.
  - intros T1 T2 T3. destruct (answer_transient _ T3) as (_ & e & He).
    exists e. split; [exact He|]. now rewrite H3, He.
  - intros r T1 T2 Hr Hs. rewrite H3, Hr by assumption. simpl.
    unfold Client._raise_for_status, Client.raise_for_status.
    destruct (Z.eqb_spec (status r) 401); [lia|].
    destruct (Z.eqb_spec (status r) 403); [lia|].
    destruct (Z.eqb_spec (status r) 429); [lia|].
    destruct (Z.leb_spec 200 (status r)); [|lia].
    destruct (Z.leb_spec (status r) 299); [|lia].
    reflexivity.
Qed.

Lemma transient_failures_retried_witness :
  call Examples.flaky_env GET "/en/data/QCL" [] Examples.fresh =
  (Returns (JList []),
   after_requests 3 (mkRequest GET "/en/data/QCL" []) Examples.fresh).
Proof.
  apply (proj2 (proj2 (proj2 (proj2
    (transient_failures_retried Examples.flaky_env GET "/en/data/QCL" []
       Examples.fresh))))
    (mkResponse 200 "[]" (Some (JList [])))).
  - reflexivity.
  - reflexivity.
  - reflexivity.
  - simpl. lia.
Defined.

(** C5: a response with status 401 or 403 ends the call with an Auth
    error, and a response with status 429 with a RateLimited error, a
    class apart from Auth; the response is never retried, whatever number
    of attempts is left, so that the call makes exactly one request when
    it is the first response. *)
Theorem auth_and_rate_limit_not_retried (env : environment) (m : http_method)
    (path : string) (payload : list (string * param)) (w : world) (r : Response) :
  let req := mkRequest m path payload in
  server env (length (sent w)) req = Answered r ->
  (status r = 401 \/ status r = 403 ->
   exists e, is_auth e = true /\
     call env m path payload w = (Raises e, after_requests 1 req w) /\
     forall further,
       Client.attempt_loop further (once env m path payload) w =
       (Raises e, after_requests 1 req w)) /\
  (status r = 429 ->
   exists e, is_rate_limited e = true /\ is_auth e = false /\
     call env m path payload w = (Raises e, after_requests 1 req w) /\
     forall further,
       Client.attempt_loop further (once env m path payload) w =
       (Raises e, after_requests 1 req w)).
Proof.
  intros req Hr.
  assert (Hloop : status r < 500 -> forall further,
            Client.attempt_loop further (once env m path payload) w =
            (Client.answer (Answered r), after_requests 1 req w)).
  { intros Hs further. subst req. rewrite attempt_loop_settled; rewrite Hr.
    - reflexivity.
    - simpl. now apply Z.leb_gt. }
  rewrite call_eq. split.
  - intros Hs.
    assert (Hlt : status r < 500) by lia.
    destruct Hs as [Hs|Hs].
    + exists (FAOSTATAuthError "401 Unauthorized").
      assert (Ha : Client.answer (Answered r) = Raises (FAOSTATAuthError "401 Unauthorized")).
      { simpl. unfold Client._raise_for_status. now rewrite Hs. }
      split; [reflexivity|]. split; [|intros further]; now rewrite Hloop, Ha.
    + exists (FAOSTATAuthError "403 Forbidden").
      assert (Ha : Client.answer (Answered r) = Raises (FAOSTATAuthError "403 Forbidden")).
      { simpl. unfold Client._raise_for_status. now rewrite Hs. }
      split; [reflexivity|]. split; [|intros further]; now rewrite Hloop, Ha.
  - intros Hs.
    assert (Hlt : status r < 500) by lia.
    exists (FAOSTATRateLimitError "429 Rate limit exceeded").
    assert (Ha : Client.answer (Answered r) =
                 Raises (FAOSTATRateLimitError "429 Rate limit exceeded")).
    { simpl. unfold Client._raise_for_status. now rewrite Hs. }
    split; [reflexivity|]. split; [reflexivity|].
    split; [|intros further]; now rewrite Hloop, Ha.
Qed.

Lemma auth_and_rate_limit_not_retried_witness :
  (exists e, is_auth e = true /\
     call Examples.strict_env GET "/en/data/QCL" [] Examples.fresh =
     (Raises e, after_requests 1 (mkRequest GET "/en/data/QCL" []) Examples.fresh)) /\
  (exists e, is_rate_limited e = true /\
     call Examples.limited_env POST "/en/datasize/" [] Examples.fresh =
     (Raises e, after_requests 1 (mkRequest POST "/en/datasize/" []) Examples.fresh)).
Proof.
  split.
  - destruct (proj1 (auth_and_rate_limit_not_retried Examples.strict_env GET
      "/en/data/QCL" [] Examples.fresh (mkResponse 401 "no" None) eq_refl)
      (or_introl eq_refl)) as (e & He & Hcall & _).
    exists e. split; [exact He|exact Hcall].
  - destruct (proj2 (auth_and_rate_limit_not_retried Examples.limited_env POST
      "/en/datasize/" [] Examples.fresh (mkResponse 429 "slow down" None) eq_refl)
      eq_refl) as (e & He & _ & Hcall & _).
    exists e. split; [exact He|exact Hcall].
Defined.

(** ** The exporter *)

(** C8: [export] raises the ValueError "nothing to export" for a frame
    without rows, and [export_partitioned] raises a ValueError for an empty
    frame and for a partition column that is not a column of the frame; in
    each case the disk is left as it was. *)
Theorem export_refuses_empty :
  (forall write_error df domain_code output_dir to_csv to_parquet compression w,
     rows df = [] ->
     Exporter.export write_error df domain_code output_dir to_csv to_parquet
       compression w =
     (Raises (ValueError "nothing to export"), w)) /\
  (forall write_error groupby format_value df domain_code partition_col
          output_dir compression w,
     empty df = true \/ has_label partition_col (columns df) = false ->
     exists msg,
       Exporter.export_partitioned write_error groupby format_value df
         domain_code partition_col output_dir compression w =
       (Raises (ValueError msg), w)).
Proof.
  split.
  - intros write_error df domain_code output_dir to_csv to_parquet compression w
      Hrows.
    unfold Exporter.export, empty. rewrite Hrows.
    now destruct (columns df).
  - intros write_error groupby format_value df domain_code partition_col
      output_dir compression w H.
    unfold Exporter.export_partitioned.
    destruct (empty df); [eauto|].
    destruct H as [H|H]; [discriminate|]. rewrite H. simpl. eauto.
Qed.

Lemma export_refuses_empty_witness :
  Exporter.export Examples.accepted (mkFrame ["year"; "fetched_at"] []) "QCL"
    "./output" true true "snappy" Examples.fresh =
  (Raises (ValueError "nothing to export"), Examples.fresh) /\
  exists msg,
    Exporter.export_partitioned Examples.accepted (fun _ _ => Returns [])
      (fun _ => "") Examples.one_row "QCL" "area" "./output" "snappy"
      Examples.fresh =
    (Raises (ValueError msg), Examples.fresh).
Proof.
  split.
  - apply (proj1 export_refuses_empty). reflexivity.
  - apply (proj2 export_refuses_empty). right. reflexivity.
Defined.

(** C10: [export] of a frame that is not empty, with neither format
    asked for, raises nothing: it creates the directory
    output_dir/domain_code, writes no file and returns the empty
    mapping. *)
Theorem export_without_formats (write_error : fs_event -> option exn)
    (df : DataFrame) (domain_code output_dir compression : string) (w : world) :
  empty df = false ->
  Exporter.export write_error df domain_code output_dir false false compression
    w =
  (Returns ∅, mkWorld (sent w) (disk w ++ [Mkdir (PathJoin (PathOf output_dir) domain_code)])).
Proof.
  intros H. unfold Exporter.export. now rewrite H.
Qed.

Lemma export_without_formats_witness :
  Exporter.export Examples.accepted Examples.one_row "QCL" "./output" false
    false "snappy" Examples.fresh =
  (Returns ∅, mkWorld [] [Mkdir (PathJoin (PathOf "./output") "QCL")]).
Proof.
  apply (export_without_formats Examples.accepted Examples.one_row "QCL"
           "./output" "snappy" Examples.fresh).
  reflexivity.
Defined.

(** ** The orchestrator *)

(** C3, as stated, fails: [run_pipeline] called with both formats off is
    not rejected; it sends the size estimate and the data request, and
    returns the empty mapping. *)
Lemma formats_checked_before_fetch_counterexample :
  let run :=
    Pipeline.run_pipeline Examples.demo_env "QCL" "en" "./output" false false
      "snappy" Endpoints.no_filters true Examples.fresh in
  fst run = Returns ∅ /\
  sent (snd run) =
    [mkRequest POST "/en/datasize/" [("domain_code", PStr "QCL")];
     mkRequest GET "/en/data/QCL"
       [("show_codes", PBool true); ("show_unit", PBool true);
        ("show_flags", PBool true); ("null_values", PBool false);
        ("output_type", PStr "objects")]] /\
  sent (snd run) <> sent Examples.fresh.
Proof. split; [|split]; vm_compute; [reflexivity..|discriminate]. Qed.

(** C3, amended: the command [fetch] with both formats off is rejected
    before any request: it aborts, and neither a request is sent nor the
    disk touched. *)
Theorem fetch_rejects_no_format (env : environment) (domain_codes : list string)
    (lang output compression : string) (area element item year : option string)
    (w : world) :
  Cli.fetch env domain_codes lang output true true compression area element
    item year w = (Raises ClickAbort, w).
Proof. reflexivity. Qed.

Lemma batch_loop_log (run : string -> world -> outcome (gmap string Path) * world)
    (codes : list string) :
  forall (results : gmap string (gmap string Path)) (w : world),
  Forall (fun entry => modelled (snd entry)) (fst (sequential_runs run codes w)) ->
  exists final,
    Pipeline.batch_loop run codes results w =
      (Returns final, snd (sequential_runs run codes w)) /\
    forall code,
      final !! code =
      match last_success code (fst (sequential_runs run codes w)) with
      | Some written => Some written
      | None => results !! code
      end.
Proof.
  induction codes as [|c rest IH]; intros results w Hlog; simpl.
  - exists results. split; [reflexivity|]. intros code. reflexivity.
  - simpl in Hlog. destruct (run c w) as [o w1] eqn:Erun.
    destruct (sequential_runs run rest w1) as [log w2] eqn:Eseq.
    simpl in Hlog. apply Forall_cons_iff in Hlog as [Ho Hlog].
    assert (Hrest : Forall (fun entry => modelled (snd entry))
                      (fst (sequential_runs run rest w1))) by now rewrite Eseq.
    destruct o as [written|e|]; [| |now contradiction Ho].
    + destruct (IH (<[c := written]> results) w1 Hrest) as (final & Hb & Hl).
      rewrite Eseq in Hb, Hl. simpl in Hb, Hl.
      exists final. split; [exact Hb|]. intros code. rewrite Hl. simpl.
      destruct (last_success code log); [reflexivity|].
      destruct (String.eqb_spec c code) as [->|Hne].
      * now rewrite lookup_insert_eq.
      * now rewrite lookup_insert_ne.
    + destruct (IH results w1 Hrest) as (final & Hb & Hl).
      rewrite Eseq in Hb, Hl. simpl in Hb, Hl.
      exists final. split; [exact Hb|]. intros code. rewrite Hl. simpl.
      now destruct (last_success code log).
Qed.

Lemma sequential_runs_codes {A : Type} (run : string -> world -> outcome A * world)
    (codes : list string) :
  forall w, map fst (fst (sequential_runs run codes w)) = codes.
Proof.
  induction codes as [|c rest IH]; intros w; simpl; [reflexivity|].
  destruct (run c w) as [o w1]. specialize (IH w1).
  destruct (sequential_runs run rest w1) as [log w2]. simpl in *. now rewrite IH.
Qed.

Lemma last_success_in {A : Type} (code : string) (log : list (string * outcome A))
    (a : A) :
  last_success code log = Some a -> In (code, Returns a) log.
Proof.
  induction log as [|[c o] rest IH]; simpl; [discriminate|].
  destruct (last_success code rest) as [a'|].
  - intros H. right. apply IH. exact H.
  - destruct o as [a'| |]; try discriminate.
    destruct (String.eqb_spec c code) as [->|]; [|discriminate].
    intros [= ->]. now left.
Qed.

Lemma last_success_unique {A : Type} (code : string) (log : list (string * outcome A))
    (o : outcome A) :
  NoDup (map fst log) -> In (code, o) log ->
  last_success code log = match o with Returns a => Some a | _ => None end.
Proof.
  induction log as [|[c o'] rest IH]; simpl; [intros _ []|].
  intros Hnd Hin. apply NoDup_cons in Hnd as [Hnotin Hnd].
  rewrite list_elem_of_In in Hnotin.
  destruct Hin as [[= -> ->]|Hin].
  - assert (Hnone : last_success code rest = None).
    { destruct (last_success code rest) as [a|] eqn:E; [|reflexivity].
      exfalso. apply Hnotin. apply last_success_in in E.
      apply (in_map fst) in E. exact E. }
    rewrite Hnone. destruct o; [|reflexivity..].
    now rewrite String.eqb_refl.
  - rewrite (IH Hnd Hin).
    destruct o; [reflexivity| |].
    + destruct o'; [|reflexivity..].
      destruct (String.eqb_spec c code) as [->|]; [|reflexivity].
      exfalso. apply Hnotin. apply (in_map fst) in Hin. exact Hin.
    + destruct o'; [|reflexivity..].
      destruct (String.eqb_spec c code) as [->|]; [|reflexivity].
      exfalso. apply Hnotin. apply (in_map fst) in Hin. exact Hin.
Qed.

Lemma modelled_log {A : Type} (log : list (string * outcome A)) :
  forallb (fun entry => is_modelled (snd entry)) log = true ->
  Forall (fun entry => modelled (snd entry)) log.
Proof.
  induction log as [|[c o] rest IH]; simpl; intros H; constructor.
  - destruct o; [discriminate..|discriminate H].
  - apply IH. now destruct (is_modelled o).
Qed.

(** C9: the batch runs the domains one after the other; a domain that
    raises does not stop the ones after it; and the mapping returned holds
    a domain exactly when a run of it succeeded, with what that run wrote
    (the last such run, should a code be listed twice).  With codes listed
    once: the successful domains, each with its artifacts, and no failed
    domain. *)
Theorem batch_keeps_successes (env : environment) (domain_codes : list string)
    (lang output_dir : string) (to_csv to_parquet : bool) (compression : string)
    (filters : Endpoints.Filters) (w : world) :
  let run := fun code =>
    Pipeline.run_pipeline env code lang output_dir to_csv to_parquet
      compression filters true in
  let log := fst (sequential_runs run domain_codes w) in
  Forall (fun entry => modelled (snd entry)) log ->
  exists results,
    Pipeline.run_pipeline_batch env domain_codes lang output_dir to_csv
      to_parquet compression filters w =
    (Returns results, snd (sequential_runs run domain_codes w)) /\
    map fst log = domain_codes /\
    (forall code, results !! code = last_success code log) /\
    (forall code written,
       results !! code = Some written -> In (code, Returns written) log) /\
    (NoDup domain_codes ->
     forall code written, In (code, Returns written) log ->
       results !! code = Some written) /\
    (NoDup domain_codes ->
     forall code e, In (code, Raises e) log -> results !! code = None).
Proof.
  intros run log Hlog.
  destruct (batch_loop_log run domain_codes ∅ w Hlog) as (results & Hb & Hl).
  assert (Hl' : forall code, results !! code = last_success code log).
  { intros code. rewrite Hl. fold log.
    destruct (last_success code log); [reflexivity|apply lookup_empty]. }
  assert (Hcodes : map fst log = domain_codes) by apply sequential_runs_codes.
  exists results. split; [exact Hb|]. split; [exact Hcodes|].
  split; [exact Hl'|]. split; [|split].
  - intros code written H. rewrite Hl' in H. now apply last_success_in.
  - intros Hnd code written Hin. rewrite Hl'.
    rewrite <- Hcodes in Hnd. now rewrite (last_success_unique _ _ _ Hnd Hin).
  - intros Hnd code e Hin. rewrite Hl'.
    rewrite <- Hcodes in Hnd. now rewrite (last_success_unique _ _ _ Hnd Hin).
Qed.

Lemma batch_keeps_successes_witness :
  exists results,
    fst (Pipeline.run_pipeline_batch Examples.demo_env ["A"; "B"; "C"] "en"
           "./output" true true "snappy" Endpoints.no_filters Examples.fresh) =
    Returns results /\
    results !! "A" =
      Some (<["csv" := PathJoin (PathJoin (PathOf "./output") "A") "data.csv"]>
            (<["parquet" := PathJoin (PathJoin (PathOf "./output") "A") "data.parquet"]> ∅)) /\
    results !! "B" = None /\
    results !! "C" =
      Some (<["csv" := PathJoin (PathJoin (PathOf "./output") "C") "data.csv"]>
            (<["parquet" := PathJoin (PathJoin (PathOf "./output") "C") "data.parquet"]> ∅)).
Proof.
  destruct (batch_keeps_successes Examples.demo_env ["A"; "B"; "C"] "en"
              "./output" true true "snappy" Endpoints.no_filters Examples.fresh)
    as (results & Hb & _ & Hl & _).
  - apply modelled_log. vm_compute. reflexivity.
  - exists results. rewrite Hb, !Hl. repeat split; vm_compute; reflexivity.
Defined.

(** ** The cleaned frame *)

Section CleanedFrame.

Import Cleaner.

Variable parse : string -> option Q.

Lemma scalar_eqb_sym (a b : scalar) : scalar_eqb a b = scalar_eqb b a.
Proof.
  assert (Hq : forall p q, Qeq_bool p q = Qeq_bool q p).
  { intros p q. destruct (Qeq_bool p q) eqn:E; symmetry.
    - apply Qeq_bool_iff. symmetry. now apply Qeq_bool_iff.
    - destruct (Qeq_bool q p) eqn:E'; [|reflexivity].
      apply Qeq_bool_iff in E'. symmetry in E'. apply Qeq_bool_iff in E'.
      congruence. }
  destruct a, b; simpl; try reflexivity; try apply Hq.
  apply String.eqb_sym.
Qed.

Lemma row_eqb_sym (r1 : list scalar) : forall r2, row_eqb r1 r2 = row_eqb r2 r1.
Proof.
  induction r1 as [|a t IH]; intros [|b u]; simpl; try reflexivity.
  now rewrite scalar_eqb_sym, IH.
Qed.

(** *** Shape of the frame through the steps *)

Lemma for_each_returns {A B : Type} (f : A -> outcome B) (l : list A) :
  forall l', for_each f l = Returns l' -> Forall2 (fun a b => f a = Returns b) l l'.
Proof.
  induction l as [|a t IH]; simpl; intros l' H.
  - injection H as <-. constructor.
  - destruct (f a) as [b| |] eqn:Ea; try discriminate. simpl in H.
    destruct (for_each f t) as [u| |]; try discriminate. simpl in H.
    injection H as <-. constructor; [exact Ea|now apply IH].
Qed.

Lemma assign_row_length (col : string) (f : scalar -> outcome scalar)
    (cols : list string) :
  forall row row', assign_row col f cols row = Returns row' ->
  length row' = length row.
Proof.
  induction cols as [|c cs IH]; intros row row' H; simpl in H.
  - now injection H as <-.
  - destruct row as [|v vs]; [now injection H as <-|].
    destruct (if String.eqb c col then f v else Returns v) as [v'| |];
      try discriminate. simpl in H.
    destruct (assign_row col f cs vs) as [vs'| |] eqn:E; try discriminate.
    simpl in H. injection H as <-. simpl. f_equal. now apply IH.
Qed.

Lemma assign_column_shape (f : scalar -> outcome scalar) (df df' : DataFrame)
    (col : string) :
  assign_column f df col = Returns df' ->
  columns df' = columns df /\ (well_formed df -> well_formed df').
Proof.
  unfold assign_column.
  destruct (1 <? _)%nat; [discriminate|].
  destruct (for_each _ (rows df)) as [rows'| |] eqn:E; try discriminate.
  simpl. intros [= <-]. split; [reflexivity|].
  unfold well_formed. simpl. intros Hwf.
  apply for_each_returns in E. clear -E Hwf.
  induction E as [|row row' l l' Hrow _ IH]; [constructor|].
  apply Forall_cons_iff in Hwf as [Hlen Hwf].
  constructor; [|now apply IH].
  now rewrite (assign_row_length _ _ _ _ _ Hrow).
Qed.

Lemma assign_columns_shape (f : scalar -> outcome scalar) (cols : list string) :
  forall df df', assign_columns f cols df = Returns df' ->
  columns df' = columns df /\ (well_formed df -> well_formed df').
Proof.
  induction cols as [|c cs IH]; intros df df' H; simpl in H.
  - injection H as <-. tauto.
  - destruct (assign_column f df c) as [df1| |] eqn:E; try discriminate.
    simpl in H. destruct (assign_column_shape _ _ _ _ E) as [Hc Hw].
    destruct (IH _ _ H) as [Hc' Hw']. split; [congruence|tauto].
Qed.

Lemma cast_types_shape (df df' : DataFrame) :
  _cast_types parse df = Returns df' ->
  columns df' = columns df /\ (well_formed df -> well_formed df').
Proof.
  unfold _cast_types. intros H.
  destruct (assign_columns _ (List.filter (contains "year") _) df)
    as [df1| |] eqn:E1; try discriminate.
  simpl in H.
  destruct (assign_columns _ (List.filter _ (columns df1)) df1)
    as [df2| |] eqn:E2; try discriminate.
  simpl in H. injection H as <-.
  destruct (assign_columns_shape _ _ _ _ E1) as [Hc1 Hw1].
  destruct (assign_columns_shape _ _ _ _ E2) as [Hc2 Hw2].
  split; [congruence|tauto].
Qed.

Lemma frame_of_records_well_formed (records : list record) :
  well_formed (frame_of_records records).
Proof.
  unfold well_formed, frame_of_records. simpl.
  apply List.Forall_forall. intros row Hin. apply in_map_iff in Hin as (r & <- & _).
  apply length_map.
Qed.

(** *** Where the columns come from *)

Lemma add_keys_in (r : record) :
  forall cols c, In c (add_keys cols r) -> In c cols \/ In c (map fst r).
Proof.
  induction r as [|[k v] t IH]; intros cols c H; simpl in *; [now left|].
  apply IH in H as [H|H]; [|now right; right].
  destruct (has_label k cols); [now left|].
  apply in_app_or in H as [H|[<-|[]]]; [now left|now right; left].
Qed.

Lemma union_keys_in (records : list record) :
  forall cols c, In c (fold_left add_keys records cols) ->
  In c cols \/ exists r, In r records /\ In c (map fst r).
Proof.
  induction records as [|r t IH]; intros cols c H; simpl in *; [now left|].
  apply IH in H as [H|(r' & Hr' & Hc)].
  - apply add_keys_in in H as [H|H]; [now left|right; exists r; auto].
  - right. exists r'. auto.
Qed.

Lemma as_fields_keys (d : list (string * json)) :
  forall r, as_fields d = Some r -> map fst r = map fst d.
Proof.
  induction d as [|[k v] t IH]; intros r H; simpl in H.
  - now injection H as <-.
  - destruct (as_scalar v); [|discriminate].
    destruct (as_fields t) as [r'|]; [|discriminate].
    injection H as <-. simpl. f_equal. now apply IH.
Qed.

Lemma as_records_keys (l : list json) :
  forall records r, as_records l = Some records -> In r records ->
  incl (map fst r) (flat_map keys_of l).
Proof.
  induction l as [|j t IH]; intros records r H Hin; simpl in H.
  - injection H as <-. destruct Hin.
  - destruct (as_record j) as [r0|] eqn:Ej; [|discriminate].
    destruct (as_records t) as [rs|] eqn:Et; [|discriminate].
    injection H as <-. simpl. destruct Hin as [->|Hin].
    + destruct j; try discriminate. simpl in Ej.
      rewrite (as_fields_keys _ _ Ej). apply incl_appl, incl_refl.
    + apply incl_appr. now apply (IH rs).
Qed.

(** *** Rows kept and rows told apart *)

Lemma keep_first_in (rs : list (list scalar)) :
  forall seen r, In r (keep_first seen rs) -> In r rs.
Proof.
  induction rs as [|r0 t IH]; intros seen r H; simpl in *; [exact H|].
  destruct (existsb (row_eqb r0) seen).
  - right. now apply (IH seen).
  - destruct H as [H|H]; [now left|right; now apply (IH (r0 :: seen))].
Qed.

Lemma keep_first_unseen (rs : list (list scalar)) :
  forall seen r s, In r (keep_first seen rs) -> In s seen -> row_eqb r s = false.
Proof.
  induction rs as [|r0 t IH]; intros seen r s H Hs; simpl in H; [destruct H|].
  destruct (existsb (row_eqb r0) seen) eqn:E.
  - now apply (IH seen).
  - destruct H as [<-|H].
    + destruct (row_eqb r0 s) eqn:Er; [|reflexivity].
      assert (existsb (row_eqb r0) seen = true)
        by (apply existsb_exists; eauto).
      congruence.
    + apply (IH (r0 :: seen)); [exact H|now right].
Qed.

Lemma keep_first_distinct (rs : list (list scalar)) :
  forall seen (i j : nat) r1 r2, (i < j)%nat ->
  keep_first seen rs !! i = Some r1 -> keep_first seen rs !! j = Some r2 ->
  row_eqb r2 r1 = false.
Proof.
  induction rs as [|r0 t IH]; intros seen i j r1 r2 Hij H1 H2; simpl in *;
    [discriminate|].
  destruct (existsb (row_eqb r0) seen); [now apply (IH seen i j)|].
  destruct j as [|j]; [lia|]. simpl in H2.
  destruct i as [|i]; simpl in H1.
  - injection H1 as <-.
    apply (keep_first_unseen t (r0 :: seen)); [|now left].
    apply list_elem_of_In, list_elem_of_lookup. eauto.
  - apply (IH (r0 :: seen) i j); [lia|assumption..].
Qed.

(** *** The provenance column leaves the data fields alone *)

Lemma data_cells_overwrite (v : scalar) (cols : list string) :
  forall row, data_cells cols (overwrite "fetched_at" v cols row) = data_cells cols row.
Proof.
  induction cols as [|c cs IH]; intros [|x xs]; simpl; try reflexivity.
  unfold has_label. simpl. destruct (String.eqb c "fetched_at"); simpl.
  - apply IH.
  - f_equal. apply IH.
Qed.

Lemma data_cells_append (v : scalar) (cols : list string) :
  forall row, length row = length cols ->
  data_cells (cols ++ ["fetched_at"]) (row ++ [v]) = data_cells cols row.
Proof.
  induction cols as [|c cs IH]; intros [|x xs] Hlen; simpl in *; try discriminate.
  - reflexivity.
  - injection Hlen as Hlen.
    destruct (String.eqb c "fetched_at"); simpl; [|f_equal]; now apply IH.
Qed.

Lemma data_cells_all (cols : list string) :
  ~ In "fetched_at" cols ->
  forall row, length row = length cols -> data_cells cols row = row.
Proof.
  induction cols as [|c cs IH]; intros Hno [|x xs] Hlen; simpl in *;
    try discriminate; [reflexivity|].
  injection Hlen as Hlen. unfold has_label. simpl.
  destruct (String.eqb_spec c "fetched_at") as [->|_]; [tauto|]. simpl.
  f_equal. apply IH; [tauto|exact Hlen].
Qed.

Lemma has_label_in (col : string) (cols : list string) :
  has_label col cols = true <-> In col cols.
Proof.
  unfold has_label. rewrite existsb_exists. split.
  - intros (c & Hin & Hc). apply String.eqb_eq in Hc. now subst.
  - intros H. exists col. split; [exact H|apply String.eqb_refl].
Qed.

(** The steps of [clean_data] between the extraction and the result. *)
Lemma clean_data_steps (other : string -> string) (now : string)
    (raw : RawResponse) (df : DataFrame) :
  clean_data other parse now raw = Returns df ->
  df = empty_frame \/
  exists records df1,
    as_records (_extract_records raw) = Some records /\
    _cast_types parse (_normalize_columns other (frame_of_records records)) = Returns df1 /\
    df = set_item "fetched_at" (SStr now) (drop_duplicates (_drop_empty_rows df1)).
Proof.
  unfold clean_data.
  destruct (_extract_records raw) as [|j l]; [intros [= <-]; now left|].
  destruct (as_records (j :: l)) as [records|]; [|discriminate].
  destruct (_cast_types parse _) as [df1| |] eqn:E; try discriminate.
  simpl. intros [= <-]. right. now exists records, df1.
Qed.

End CleanedFrame.

(** C7, as stated, fails: two records that differ in a field named
    [fetched_at] only are both kept, and once the provenance is written
    over that field the two rows agree on every other field. *)
Lemma cleaned_rows_distinct_counterexample :
  Cleaner.clean_data Examples.as_is Cleaner.parse_decimal "2026-01-01T00:00:00+00:00"
    Examples.stamped_twice =
  Returns (mkFrame ["a"; "fetched_at"]
             [[SInt 1; SStr "2026-01-01T00:00:00+00:00"];
              [SInt 1; SStr "2026-01-01T00:00:00+00:00"]]) /\
  rows_agree ["a"; "fetched_at"]
    [SInt 1; SStr "2026-01-01T00:00:00+00:00"]
    [SInt 1; SStr "2026-01-01T00:00:00+00:00"] = true.
Proof. split; vm_compute; reflexivity. Qed.

(** C7, amended: in the frame [clean_data] returns, no row is null in all
    the fields that are not provenance; and when no field of the input is
    named fetched_at after normalisation, no two rows agree on all the
    fields that are not provenance.  This holds whatever [_to_snake_case]
    makes of the names outside ASCII. *)
Theorem cleaned_frame_invariants (other : string -> string)
    (parse : string -> option Q) (now : string)
    (raw : RawResponse) (df : DataFrame) :
  Cleaner.clean_data other parse now raw = Returns df ->
  (forall row, In row (rows df) -> all_null (columns df) row = false) /\
  (~ In "fetched_at" (map (Cleaner._to_snake_case other) (field_names raw)) ->
   forall (i j : nat) r1 r2, i <> j ->
     rows df !! i = Some r1 -> rows df !! j = Some r2 ->
     rows_agree (columns df) r1 r2 = false).
Proof.
  intros H. apply clean_data_steps in H as [->|(records & df1 & Hrec & Hcast & ->)].
  { split; [intros row []|]. intros _ i j r1 r2 _ H1. simpl in H1.
    now rewrite lookup_nil in H1. }
  destruct (cast_types_shape parse _ _ Hcast) as [Hcols Hwf].
  simpl in Hcols.
  assert (Hwf1 : well_formed df1).
  { apply Hwf. unfold well_formed. simpl. rewrite length_map.
    apply frame_of_records_well_formed. }
  clear Hwf.
  unfold Cleaner.set_item, Cleaner.drop_duplicates, Cleaner._drop_empty_rows.
  cbn [columns rows].
  remember (Cleaner.keep_first [] _) as kept eqn:Ekept.
  assert (Hkept : forall r, In r kept ->
            length r = length (columns df1) /\ all_null (columns df1) r = false).
  { intros r Hr. rewrite Ekept in Hr. apply keep_first_in in Hr.
    apply filter_In in Hr as [Hin Hp]. split.
    - unfold well_formed in Hwf1. rewrite List.Forall_forall in Hwf1. now apply Hwf1.
    - now apply negb_true_iff in Hp. }
  destruct (has_label "fetched_at" (columns df1)) eqn:Hlabel; cbn [columns rows].
  - split.
    + intros row Hin. apply in_map_iff in Hin as (r & <- & Hr).
      unfold all_null. rewrite data_cells_overwrite. now apply Hkept.
    + intros Hno. exfalso. apply Hno.
      apply has_label_in in Hlabel. rewrite Hcols in Hlabel.
      apply in_map_iff in Hlabel as (c & <- & Hc). apply in_map.
      unfold Cleaner.frame_of_records in Hc. simpl in Hc.
      apply union_keys_in in Hc as [[]|(r & Hr & Hc)].
      now apply (as_records_keys _ _ _ Hrec Hr).
  - split.
    + intros row Hin. apply in_map_iff in Hin as (r & <- & Hr).
      unfold all_null. destruct (Hkept r Hr) as [Hlen Hnull].
      now rewrite data_cells_append.
    + intros _ i j r1 r2 Hij H1 H2.
      rewrite list_lookup_fmap in H1, H2.
      destruct (kept !! i) as [r1'|] eqn:E1; [|discriminate].
      destruct (kept !! j) as [r2'|] eqn:E2; [|discriminate].
      simpl in H1, H2. injection H1 as <-. injection H2 as <-.
      assert (Hin1 : In r1' kept)
        by (apply list_elem_of_In, list_elem_of_lookup; eauto).
      assert (Hin2 : In r2' kept)
        by (apply list_elem_of_In, list_elem_of_lookup; eauto).
      destruct (Hkept _ Hin1) as [Hl1 _]. destruct (Hkept _ Hin2) as [Hl2 _].
      assert (Hno : ~ In "fetched_at" (columns df1)).
      { intros Hin. apply has_label_in in Hin. congruence. }
      unfold rows_agree. rewrite !data_cells_append by assumption.
      rewrite !data_cells_all by assumption.
      destruct (Nat.lt_total i j) as [Hlt|[->|Hlt]]; [|contradiction|].
      * rewrite row_eqb_sym. rewrite Ekept in E1, E2.
        exact (keep_first_distinct _ _ _ _ _ _ Hlt E1 E2).
      * rewrite Ekept in E1, E2.
        exact (keep_first_distinct _ _ _ _ _ _ Hlt E2 E1).
Qed.

Lemma cleaned_frame_invariants_witness :
  let df := mkFrame ["year"; "value"; "fetched_at"]
              [[SInt 2020; SFloat (11 # 2); SStr "2026-01-01T00:00:00+00:00"];
               [SInt 2021; SNull; SStr "2026-01-01T00:00:00+00:00"]] in
  Cleaner.clean_data Examples.as_is Cleaner.parse_decimal "2026-01-01T00:00:00+00:00"
    Examples.repeated = Returns df /\
  (forall row, In row (rows df) -> all_null (columns df) row = false) /\
  (forall (i j : nat) r1 r2, i <> j ->
     rows df !! i = Some r1 -> rows df !! j = Some r2 ->
     rows_agree (columns df) r1 r2 = false).
Proof.
  intros df.
  assert (H : Cleaner.clean_data Examples.as_is Cleaner.parse_decimal "2026-01-01T00:00:00+00:00"
                Examples.repeated = Returns df) by (vm_compute; reflexivity).
  split; [exact H|].
  destruct (cleaned_frame_invariants _ _ _ _ _ H) as [Hnull Hdistinct].
  split; [exact Hnull|]. apply Hdistinct.
  vm_compute. intros [E|[E|[E|[E|[E|[E|[E|[E|[]]]]]]]]]; discriminate E.
Defined.

(** ** Column names *)

Section SnakeCase.

Import Cleaner.

Variable other : string -> string.

Lemma lower_char_no_upper (a : ascii) : no_upper (lower_char a) = true.
Proof. destruct a as [[] [] [] [] [] [] [] []]; reflexivity. Qed.

Lemma lower_char_separator (a : ascii) :
  is_separator (lower_char a) = is_separator a.
Proof. destruct a as [[] [] [] [] [] [] [] []]; reflexivity. Qed.

Lemma lower_char_fixed (a : ascii) : no_upper a = true -> lower_char a = a.
Proof.
  unfold no_upper, lower_char. now destruct (is_upper a).
Qed.

Lemma all_chars_lower (s : string) : all_chars no_upper (lower s) = true.
Proof.
  induction s as [|a t IH]; simpl; [reflexivity|].
  now rewrite lower_char_no_upper, IH.
Qed.

Lemma all_chars_lower_separator (s : string) :
  all_chars no_separator (lower s) = all_chars no_separator s.
Proof.
  induction s as [|a t IH]; simpl; [reflexivity|].
  unfold no_separator at 1 3. now rewrite lower_char_separator, IH.
Qed.

Lemma all_chars_sub_separators (s : string) :
  all_chars no_separator (sub_separators s) = true.
Proof.
  induction s as [|a t IH]; simpl; [reflexivity|].
  destruct (is_separator a) eqn:Ea.
  - destruct (starts_with is_separator t); [exact IH|]. simpl. exact IH.
  - simpl. unfold no_separator at 1. now rewrite Ea.
Qed.

Lemma all_chars_lstrip (p : ascii -> bool) (c : ascii) (s : string) :
  all_chars p s = true -> all_chars p (lstrip c s) = true.
Proof.
  induction s as [|a t IH]; simpl; [reflexivity|].
  intros H. apply andb_true_iff in H as [Ha Ht].
  destruct (Ascii.eqb a c); [now apply IH|]. simpl. now rewrite Ha, Ht.
Qed.

Lemma all_chars_rstrip (p : ascii -> bool) (c : ascii) (s : string) :
  all_chars p s = true -> all_chars p (rstrip c s) = true.
Proof.
  induction s as [|a t IH]; simpl; [reflexivity|].
  intros H. apply andb_true_iff in H as [Ha Ht]. specialize (IH Ht).
  destruct (rstrip c t) as [|b u].
  - destruct (Ascii.eqb a c); [reflexivity|]. simpl. now rewrite Ha.
  - change (p a && all_chars p (String b u) = true). now rewrite Ha, IH.
Qed.

(** What a string without capitals and separators goes through
    unchanged. *)
Lemma sub_acronym_fixed (s : string) :
  all_chars no_upper s = true -> sub_acronym s = s.
Proof.
  induction s as [|a t IH]; simpl; [reflexivity|].
  intros H. apply andb_true_iff in H as [Ha Ht].
  unfold no_upper in Ha. apply negb_true_iff in Ha. rewrite Ha. simpl.
  now rewrite IH.
Qed.

Lemma sub_camel_fixed (s : string) :
  all_chars no_upper s = true -> sub_camel s = s.
Proof.
  induction s as [|a t IH]; simpl; [reflexivity|].
  intros H. apply andb_true_iff in H as [Ha Ht].
  assert (Hs : starts_with is_upper t = false).
  { destruct t as [|b u]; [reflexivity|]. simpl in *.
    apply andb_true_iff in Ht as [Hb _]. unfold no_upper in Hb.
    now apply negb_true_iff in Hb. }
  rewrite Hs, andb_false_r. now rewrite IH.
Qed.

Lemma sub_separators_fixed (s : string) :
  all_chars no_separator s = true -> sub_separators s = s.
Proof.
  induction s as [|a t IH]; simpl; [reflexivity|].
  intros H. apply andb_true_iff in H as [Ha Ht].
  unfold no_separator in Ha. apply negb_true_iff in Ha. rewrite Ha.
  now rewrite IH.
Qed.

Lemma lower_fixed (s : string) : all_chars no_upper s = true -> lower s = s.
Proof.
  induction s as [|a t IH]; simpl; [reflexivity|].
  intros H. apply andb_true_iff in H as [Ha Ht].
  now rewrite (lower_char_fixed _ Ha), IH.
Qed.

Lemma lstrip_fixed (c : ascii) (s : string) :
  starts_with (Ascii.eqb c) s = false -> lstrip c s = s.
Proof.
  destruct s as [|a t]; simpl; [reflexivity|].
  rewrite Ascii.eqb_sym. now intros ->.
Qed.

Lemma lstrip_start (c : ascii) (s : string) :
  starts_with (Ascii.eqb c) (lstrip c s) = false.
Proof.
  induction s as [|a t IH]; simpl; [reflexivity|].
  destruct (Ascii.eqb a c) eqn:E; [exact IH|]. simpl.
  now rewrite Ascii.eqb_sym.
Qed.

Lemma rstrip_start (c : ascii) (s : string) :
  starts_with (Ascii.eqb c) s = false ->
  starts_with (Ascii.eqb c) (rstrip c s) = false.
Proof.
  destruct s as [|a t]; simpl; [reflexivity|]. intros H.
  destruct (rstrip c t); [|exact H].
  destruct (Ascii.eqb a c); [reflexivity|exact H].
Qed.

Lemma rstrip_end (c : ascii) (s : string) : ends_with c (rstrip c s) = false.
Proof.
  induction s as [|a t IH]; simpl; [reflexivity|].
  destruct (rstrip c t) as [|b u] eqn:E.
  - destruct (Ascii.eqb a c) eqn:Ea; [reflexivity|]. simpl. exact Ea.
  - exact IH.
Qed.

Lemma rstrip_fixed (c : ascii) (s : string) :
  ends_with c s = false -> rstrip c s = s.
Proof.
  induction s as [|a t IH]; simpl; [reflexivity|].
  destruct t as [|b u].
  - simpl. now intros ->.
  - intros H. rewrite (IH H). reflexivity.
Qed.

Lemma strip_fixed (c : ascii) (s : string) :
  starts_with (Ascii.eqb c) s = false -> ends_with c s = false ->
  strip c s = s.
Proof.
  intros Hs He. unfold strip. now rewrite lstrip_fixed, rstrip_fixed.
Qed.

(** The scan of an ASCII name gives an ASCII name. *)
Lemma lower_char_ascii (a : ascii) : is_ascii (lower_char a) = is_ascii a.
Proof. destruct a as [[] [] [] [] [] [] [] []]; reflexivity. Qed.

Lemma sub_acronym_ascii (s : string) :
  ascii_name s = true -> ascii_name (sub_acronym s) = true.
Proof.
  unfold ascii_name. induction s as [|a t IH]; simpl; [reflexivity|].
  intros H. apply andb_true_iff in H as [Ha Ht]. rewrite Ha.
  destruct (is_upper a && starts_upper_lower t); simpl; now apply IH.
Qed.

Lemma sub_camel_ascii (s : string) :
  ascii_name s = true -> ascii_name (sub_camel s) = true.
Proof.
  unfold ascii_name. induction s as [|a t IH]; simpl; [reflexivity|].
  intros H. apply andb_true_iff in H as [Ha Ht]. rewrite Ha.
  destruct ((is_lower a || is_digit a) && starts_with is_upper t); simpl;
    now apply IH.
Qed.

Lemma sub_separators_ascii (s : string) :
  ascii_name s = true -> ascii_name (sub_separators s) = true.
Proof.
  unfold ascii_name. induction s as [|a t IH]; simpl; [reflexivity|].
  intros H. apply andb_true_iff in H as [Ha Ht].
  destruct (is_separator a).
  - destruct (starts_with is_separator t); simpl; now apply IH.
  - simpl. rewrite Ha. now apply IH.
Qed.

Lemma lower_ascii (s : string) : ascii_name (lower s) = ascii_name s.
Proof.
  unfold ascii_name. induction s as [|a t IH]; simpl; [reflexivity|].
  now rewrite lower_char_ascii, IH.
Qed.

Lemma to_snake_case_ascii (name : string) :
  ascii_name name = true -> ascii_name (_to_snake_case other name) = true.
Proof.
  intros H. unfold _to_snake_case. rewrite H. unfold strip, ascii_name.
  apply all_chars_rstrip, all_chars_lstrip. fold (ascii_name (lower
    (sub_separators (sub_camel (sub_acronym name))))).
  rewrite lower_ascii.
  now apply sub_separators_ascii, sub_camel_ascii, sub_acronym_ascii.
Qed.

(** An ASCII name without capitals or separators, with no underscore at
    either end, is left as it is. *)
Lemma to_snake_case_fixed (name : string) :
  ascii_name name = true ->
  all_chars no_upper name = true ->
  all_chars no_separator name = true ->
  starts_with (Ascii.eqb "_") name = false ->
  ends_with "_" name = false ->
  _to_snake_case other name = name.
Proof.
  intros Ha Hu Hsep Hs He. unfold _to_snake_case. rewrite Ha.
  rewrite sub_acronym_fixed, sub_camel_fixed, sub_separators_fixed, lower_fixed
    by assumption.
  now apply strip_fixed.
Qed.

Lemma to_snake_case_shape (name : string) :
  ascii_name name = true ->
  all_chars no_upper (_to_snake_case other name) = true /\
  all_chars no_separator (_to_snake_case other name) = true /\
  starts_with (Ascii.eqb "_") (_to_snake_case other name) = false /\
  ends_with "_" (_to_snake_case other name) = false.
Proof.
  intros Ha. unfold _to_snake_case, strip. rewrite Ha. repeat split.
  - apply all_chars_rstrip, all_chars_lstrip, all_chars_lower.
  - apply all_chars_rstrip, all_chars_lstrip.
    rewrite all_chars_lower_separator. apply all_chars_sub_separators.
  - apply rstrip_start, lstrip_start.
  - apply rstrip_end.
Qed.

End SnakeCase.

(** X1: the name [_to_snake_case] returns for an ASCII name is ASCII,
    holds no capital, no whitespace and no hyphen, and neither starts nor
    ends with an underscore. *)
Theorem to_snake_case_normal (other : string -> string) (name : string) :
  Cleaner.ascii_name name = true ->
  let out := Cleaner._to_snake_case other name in
  Cleaner.ascii_name out = true /\
  all_chars no_upper out = true /\
  all_chars no_separator out = true /\
  Cleaner.starts_with (Ascii.eqb "_") out = false /\
  ends_with "_" out = false.
Proof.
  intros Ha out. subst out. split; [now apply to_snake_case_ascii|].
  unfold Cleaner._to_snake_case, Cleaner.strip. rewrite Ha.
  repeat split.
  - apply all_chars_rstrip, all_chars_lstrip, all_chars_lower.
  - apply all_chars_rstrip, all_chars_lstrip.
    rewrite all_chars_lower_separator. apply all_chars_sub_separators.
  - apply rstrip_start, lstrip_start.
  - apply rstrip_end.
Qed.

Lemma to_snake_case_normal_witness :
  Cleaner._to_snake_case Examples.as_is "HTTPResponse Code-2xx_" =
    "http_response_code_2xx" /\
  Cleaner.ascii_name "http_response_code_2xx" = true /\
  all_chars no_upper "http_response_code_2xx" = true /\
  all_chars no_separator "http_response_code_2xx" = true /\
  Cleaner.starts_with (Ascii.eqb "_") "http_response_code_2xx" = false /\
  ends_with "_" "http_response_code_2xx" = false.
Proof.
  split; [reflexivity|].
  exact (to_snake_case_normal Examples.as_is "HTTPResponse Code-2xx_" eq_refl).
Defined.

(** X2: on ASCII names renaming is idempotent: the name that comes out of
    [_to_snake_case] goes through it unchanged. *)
Theorem to_snake_case_idempotent (other : string -> string) (name : string) :
  Cleaner.ascii_name name = true ->
  Cleaner._to_snake_case other (Cleaner._to_snake_case other name) =
  Cleaner._to_snake_case other name.
Proof.
  intros Ha.
  destruct (to_snake_case_shape other name Ha) as (Hu & Hsep & Hs & He).
  apply to_snake_case_fixed; try assumption.
  now apply to_snake_case_ascii.
Qed.

Lemma to_snake_case_idempotent_witness :
  Cleaner._to_snake_case Examples.as_is
    (Cleaner._to_snake_case Examples.as_is "Area Code (M49)") =
  Cleaner._to_snake_case Examples.as_is "Area Code (M49)" /\
  Cleaner._to_snake_case Examples.as_is "Area Code (M49)" = "area_code_(m49)".
Proof.
  split; [|reflexivity].
  exact (to_snake_case_idempotent Examples.as_is "Area Code (M49)" eq_refl).
Defined.

(** ** The cells of a cleaned frame *)

Section CleanedCells.

Import Cleaner.

Variable parse : string -> option Q.

Lemma in_cells (df : DataFrame) (c : string) (v : scalar) :
  In (c, v) (cells df) <->
  exists row, In row (rows df) /\ In (c, v) (combine (columns df) row).
Proof. unfold cells. apply in_flat_map. Qed.

Lemma for_each_in {A B : Type} (f : A -> outcome B) (l : list A) (l' : list B) :
  for_each f l = Returns l' ->
  forall b, In b l' -> exists a, In a l /\ f a = Returns b.
Proof.
  intros H. apply for_each_returns in H.
  induction H as [|a b l l' Hab _ IH]; intros x; [intros []|].
  intros [<-|Hx]; [exists a; split; [now left|exact Hab]|].
  destruct (IH x Hx) as (a' & Ha' & Hf). exists a'. split; [now right|exact Hf].
Qed.

Lemma for_each_length {A B : Type} (f : A -> outcome B) (l : list A) (l' : list B) :
  for_each f l = Returns l' -> length l' = length l.
Proof.
  intros H. apply for_each_returns in H.
  induction H; simpl; [reflexivity|now f_equal].
Qed.

Lemma assign_row_cells (col : string) (f : scalar -> outcome scalar)
    (cols : list string) :
  forall row row', assign_row col f cols row = Returns row' ->
  forall c v', In (c, v') (combine cols row') ->
    (c = col /\ exists v, f v = Returns v') \/
    (c <> col /\ In (c, v') (combine cols row)).
Proof.
  induction cols as [|c0 cs IH]; intros row row' H c v' Hin; [destruct Hin|].
  destruct row as [|v vs]; simpl in H.
  { injection H as <-. destruct Hin. }
  destruct (String.eqb_spec c0 col) as [->|Hne].
  - destruct (f v) as [x| |] eqn:Ef; try discriminate. simpl in H.
    destruct (assign_row col f cs vs) as [vs'| |] eqn:E; try discriminate.
    simpl in H. injection H as <-. destruct Hin as [[= <- <-]|Hin].
    + left. split; [reflexivity|eauto].
    + destruct (IH _ _ E _ _ Hin) as [?|[? ?]]; [now left|right; split; [assumption|now right]].
  - simpl in H.
    destruct (assign_row col f cs vs) as [vs'| |] eqn:E; try discriminate.
    simpl in H. injection H as <-. destruct Hin as [[= <- <-]|Hin].
    + right. split; [exact Hne|now left].
    + destruct (IH _ _ E _ _ Hin) as [?|[? ?]]; [now left|right; split; [assumption|now right]].
Qed.

Lemma assign_column_cells (f : scalar -> outcome scalar) (df df' : DataFrame)
    (col : string) :
  assign_column f df col = Returns df' ->
  forall c v', In (c, v') (cells df') ->
    (c = col /\ exists v, f v = Returns v') \/
    (c <> col /\ In (c, v') (cells df)).
Proof.
  unfold assign_column.
  destruct (1 <? _)%nat; [discriminate|].
  destruct (for_each _ (rows df)) as [rows'| |] eqn:E; try discriminate.
  simpl. intros [= <-] c v' Hin.
  apply in_cells in Hin as (row' & Hrow' & Hcell). simpl in *.
  destruct (for_each_in _ _ _ E _ Hrow') as (row & Hrow & Hassign).
  destruct (assign_row_cells _ _ _ _ _ Hassign _ _ Hcell) as [?|[? ?]];
    [now left|right].
  split; [assumption|]. apply in_cells. eauto.
Qed.

(** A property of the cells that the cast of some columns establishes
    there and that held elsewhere goes through the loop. *)
Lemma assign_columns_cells (f : scalar -> outcome scalar)
    (R : string -> scalar -> Prop) (cols : list string) :
  (forall c v v', In c cols -> f v = Returns v' -> R c v') ->
  forall df df', assign_columns f cols df = Returns df' ->
  (forall c v, ~ In c cols -> In (c, v) (cells df) -> R c v) ->
  forall c v, In (c, v) (cells df') -> R c v.
Proof.
  induction cols as [|c0 cs IH]; intros Hf df df' H Hrest c v Hin; simpl in H.
  - injection H as <-. now apply Hrest.
  - destruct (assign_column f df c0) as [df1| |] eqn:E; try discriminate.
    simpl in H. apply (IH (fun c v v' Hc => Hf c v v' (or_intror Hc)) df1 df' H);
      [|exact Hin].
    intros c1 v1 Hnot Hin1.
    destruct (assign_column_cells _ _ _ _ E _ _ Hin1) as [[-> [v0 Hv0]]|[Hne Hold]].
    + apply (Hf c0 v0 v1); [now left|exact Hv0].
    + apply Hrest; [|exact Hold]. intros [Heq|Hc]; [now subst|contradiction].
Qed.

Lemma cells_label (df : DataFrame) (c : string) (v : scalar) :
  In (c, v) (cells df) -> In c (columns df).
Proof.
  intros H. apply in_cells in H as (row & _ & H). now apply in_combine_l in H.
Qed.

Lemma value_name_no_year (c : string) :
  has_label c value_names = true -> contains "year" c = false.
Proof.
  unfold has_label, value_names. simpl.
  destruct (String.eqb_spec c "value") as [->|_]; [reflexivity|].
  destruct (String.eqb_spec c "val") as [->|_]; [reflexivity|].
  destruct (String.eqb_spec c "quantity") as [->|_]; [reflexivity|].
  destruct (String.eqb_spec c "amount") as [->|_]; [reflexivity|discriminate].
Qed.

Lemma astype_Int64_returns (n : option Q) (v : scalar) :
  astype_Int64 n = Returns v -> int_or_null v = true.
Proof.
  unfold astype_Int64. destruct n as [q|]; [|now intros [= <-]].
  destruct (_ && _); [now intros [= <-]|discriminate].
Qed.

Lemma astype_float64_shape (n : option Q) : float_or_null (astype_float64 n) = true.
Proof. now destruct n. Qed.

(** After the casts, a year column holds integers and nulls, a value
    column floats and nulls. *)
Lemma cast_types_cells (df df' : DataFrame) :
  _cast_types parse df = Returns df' ->
  forall c v, In (c, v) (cells df') ->
    (contains "year" c = true -> int_or_null v = true) /\
    (has_label c value_names = true -> float_or_null v = true).
Proof.
  unfold _cast_types. intros H.
  destruct (assign_columns _ (List.filter (contains "year") _) df)
    as [df1| |] eqn:E1; try discriminate.
  cbn [mbind outcome_bind] in H.
  destruct (assign_columns _ (List.filter _ (columns df1)) df1)
    as [df2| |] eqn:E2; try discriminate.
  cbn [mbind outcome_bind] in H. injection H as <-.
  assert (H1 : forall c v, In (c, v) (cells df1) ->
                 contains "year" c = true -> int_or_null v = true).
  { apply (assign_columns_cells _
             (fun c v => contains "year" c = true -> int_or_null v = true)
             _ (fun c v v' _ Hv _ => astype_Int64_returns _ _ Hv) _ _ E1).
    intros c v Hnot Hin Hyear. exfalso. apply Hnot.
    apply filter_In. split; [now apply cells_label in Hin|exact Hyear]. }
  assert (H2 : forall c v v',
             In c (List.filter (fun c => has_label c value_names) (columns df1)) ->
             Returns (astype_float64 (to_numeric parse v)) = Returns v' ->
             (contains "year" c = true -> int_or_null v' = true) /\
             (has_label c value_names = true -> float_or_null v' = true)).
  { intros c v v' Hc Hv. apply filter_In in Hc as [_ Hc]. injection Hv as <-.
    split.
    - rewrite (value_name_no_year _ Hc). discriminate.
    - intros _. apply astype_float64_shape. }
  apply (assign_columns_cells _ _ _ H2 _ _ E2).
  intros c v Hnot Hin. split; [now apply H1|].
  intros Hval. exfalso. apply Hnot.
  apply filter_In. split; [now apply cells_label in Hin|exact Hval].
Qed.

(** *** The provenance column *)

Lemma overwrite_length (col : string) (v : scalar) (cols : list string) :
  forall row, length (overwrite col v cols row) = length row.
Proof.
  induction cols as [|c cs IH]; intros [|x xs]; simpl; try reflexivity.
  now rewrite IH.
Qed.

Lemma overwrite_cells (col : string) (v : scalar) (cols : list string) :
  forall row c x, In (c, x) (combine cols (overwrite col v cols row)) ->
    (c = col /\ x = v) \/ (c <> col /\ In (c, x) (combine cols row)).
Proof.
  induction cols as [|c0 cs IH]; intros [|x0 xs] c x Hin; simpl in Hin;
    try contradiction.
  destruct Hin as [[= <- <-]|Hin].
  - destruct (String.eqb_spec c0 col) as [->|Hne]; [now left|right].
    split; [exact Hne|now left].
  - destruct (IH _ _ _ Hin) as [?|[? ?]]; [now left|right].
    split; [assumption|now right].
Qed.

Lemma combine_append {A B : Type} (l1 l2 : list A) :
  forall (r1 r2 : list B), length r1 = length l1 ->
  combine (l1 ++ l2) (r1 ++ r2) = (combine l1 r1 ++ combine l2 r2)%list.
Proof.
  induction l1 as [|a l1 IH]; intros [|b r1] r2 Hlen; simpl in *;
    try discriminate; [reflexivity|].
  f_equal. apply IH. now injection Hlen.
Qed.

Lemma set_item_well_formed (col : string) (v : scalar) (df : DataFrame) :
  well_formed df -> well_formed (set_item col v df).
Proof.
  unfold well_formed, set_item. intros Hwf.
  destruct (has_label col (columns df)); simpl; apply List.Forall_forall;
    intros row Hin; apply in_map_iff in Hin as (r & <- & Hr);
    rewrite List.Forall_forall in Hwf; specialize (Hwf r Hr).
  - now rewrite overwrite_length.
  - rewrite !length_app. simpl. now rewrite Hwf.
Qed.

Lemma set_item_cells (col : string) (v : scalar) (df : DataFrame) :
  well_formed df ->
  forall c x, In (c, x) (cells (set_item col v df)) ->
    (c = col /\ x = v) \/ (c <> col /\ In (c, x) (cells df)).
Proof.
  intros Hwf c x Hin. apply in_cells in Hin as (row' & Hrow' & Hcell).
  unfold set_item in *. destruct (has_label col (columns df)) eqn:Hlabel;
    simpl in *; apply in_map_iff in Hrow' as (row & <- & Hrow).
  - destruct (overwrite_cells _ _ _ _ _ _ Hcell) as [?|[? ?]]; [now left|right].
    split; [assumption|]. apply in_cells. eauto.
  - unfold well_formed in Hwf. rewrite List.Forall_forall in Hwf.
    rewrite combine_append in Hcell by now apply Hwf.
    apply in_app_or in Hcell as [Hcell|[[= <- <-]|[]]]; [right|now left].
    split.
    + intros ->. apply in_combine_l in Hcell.
      apply has_label_in in Hcell. congruence.
    + apply in_cells. eauto.
Qed.

Lemma kept_rows_in (df : DataFrame) (row : list scalar) :
  In row (rows (drop_duplicates (_drop_empty_rows df))) -> In row (rows df).
Proof.
  simpl. intros H. apply keep_first_in in H. now apply filter_In in H.
Qed.

Lemma kept_rows_cells (df : DataFrame) (c : string) (v : scalar) :
  In (c, v) (cells (drop_duplicates (_drop_empty_rows df))) -> In (c, v) (cells df).
Proof.
  intros H. apply in_cells in H as (row & Hrow & Hcell).
  apply in_cells. exists row. split; [now apply kept_rows_in|exact Hcell].
Qed.

Lemma kept_rows_well_formed (df : DataFrame) :
  well_formed df -> well_formed (drop_duplicates (_drop_empty_rows df)).
Proof.
  unfold well_formed. rewrite !List.Forall_forall. intros Hwf row Hin.
  apply kept_rows_in in Hin. now apply Hwf.
Qed.

(** The frame before the provenance is written, for a response with
    records. *)
Lemma clean_data_cast (other : string -> string) (now : string)
    (raw : RawResponse) (df : DataFrame) :
  clean_data other parse now raw = Returns df ->
  _extract_records raw <> [] ->
  exists records df1,
    as_records (_extract_records raw) = Some records /\
    _cast_types parse (_normalize_columns other (frame_of_records records)) = Returns df1 /\
    columns df1 = map (_to_snake_case other) (columns (frame_of_records records)) /\
    well_formed df1 /\
    df = set_item "fetched_at" (SStr now) (drop_duplicates (_drop_empty_rows df1)).
Proof.
  unfold clean_data. intros H Hne.
  destruct (_extract_records raw) as [|j l]; [contradiction|].
  destruct (as_records (j :: l)) as [records|]; [|discriminate].
  destruct (_cast_types parse _) as [df1| |] eqn:E; try discriminate.
  simpl in H. injection H as <-. exists records, df1.
  destruct (cast_types_shape parse _ _ E) as [Hcols Hwf].
  repeat split; try assumption.
  apply Hwf. unfold well_formed. simpl. rewrite length_map.
  apply frame_of_records_well_formed.
Qed.

End CleanedCells.

(** X3: in the frame [clean_data] returns, a column whose name holds
    "year" has integers and nulls only, and a column named value, val,
    quantity or amount has floats and nulls only. *)
Theorem cleaned_frame_types (other : string -> string)
    (parse : string -> option Q) (now : string)
    (raw : RawResponse) (df : DataFrame) :
  Cleaner.clean_data other parse now raw = Returns df ->
  forall c v, In (c, v) (cells df) ->
    (Cleaner.contains "year" c = true -> int_or_null v = true) /\
    (has_label c Cleaner.value_names = true -> float_or_null v = true).
Proof.
  intros H c v Hin.
  destruct (Cleaner._extract_records raw) as [|j l] eqn:Erec.
  { unfold Cleaner.clean_data in H. rewrite Erec in H. injection H as <-.
    destruct Hin. }
  destruct (clean_data_cast parse other now raw df H) as
    (records & df1 & _ & Hcast & _ & Hwf & ->); [now rewrite Erec|].
  apply set_item_cells in Hin as [[-> ->]|[_ Hin]];
    [split; discriminate| |now apply kept_rows_well_formed].
  apply kept_rows_cells in Hin. exact (cast_types_cells parse _ _ Hcast _ _ Hin).
Qed.

Lemma cleaned_frame_types_witness :
  int_or_null (SInt 2021) = true /\ float_or_null SNull = true.
Proof.
  assert (H : forall c v,
            In (c, v) [("year", SInt 2020); ("value", SFloat (11 # 2));
                       ("fetched_at", SStr "2026-01-01T00:00:00+00:00");
                       ("year", SInt 2021); ("value", SNull);
                       ("fetched_at", SStr "2026-01-01T00:00:00+00:00")] ->
            (Cleaner.contains "year" c = true -> int_or_null v = true) /\
            (has_label c Cleaner.value_names = true -> float_or_null v = true)).
  { apply (cleaned_frame_types Examples.as_is Cleaner.parse_decimal "2026-01-01T00:00:00+00:00"
             Examples.repeated
             (mkFrame ["year"; "value"; "fetched_at"]
                [[SInt 2020; SFloat (11 # 2); SStr "2026-01-01T00:00:00+00:00"];
                 [SInt 2021; SNull; SStr "2026-01-01T00:00:00+00:00"]])).
    vm_compute. reflexivity. }
  split.
  - apply (proj1 (H "year" (SInt 2021) ltac:(simpl; tauto))). reflexivity.
  - apply (proj2 (H "value" SNull ltac:(simpl; tauto))). reflexivity.
Defined.

(** X4: when the response has records, the frame [clean_data] returns
    has a column fetched_at, every cell of a column of that name is the
    timestamp of the call, and every row has one cell per column; when no
    field of the input is named fetched_at after normalisation, the column
    is the last one and the only one of its name.  This holds whatever
    [_to_snake_case] makes of the names outside ASCII. *)
Theorem cleaned_frame_provenance (other : string -> string)
    (parse : string -> option Q) (now : string)
    (raw : RawResponse) (df : DataFrame) :
  Cleaner.clean_data other parse now raw = Returns df ->
  Cleaner._extract_records raw <> [] ->
  In "fetched_at" (columns df) /\
  (forall v, In ("fetched_at", v) (cells df) -> v = SStr now) /\
  well_formed df /\
  (~ In "fetched_at" (map (Cleaner._to_snake_case other) (field_names raw)) ->
   exists cols, columns df = (cols ++ ["fetched_at"])%list /\ ~ In "fetched_at" cols).
Proof.
  intros H Hne.
  destruct (clean_data_cast parse other now raw df H Hne) as
    (records & df1 & Hrec & _ & Hcols & Hwf & ->).
  assert (Hwf' := kept_rows_well_formed _ Hwf).
  split; [|split; [|split]].
  - unfold Cleaner.set_item. simpl.
    destruct (has_label "fetched_at" (columns df1)) eqn:E; simpl.
    + now apply has_label_in.
    + apply in_or_app. right. now left.
  - intros v Hin. apply set_item_cells in Hin as [[_ ->]|[Hne' _]];
      [reflexivity|contradiction|exact Hwf'].
  - now apply set_item_well_formed.
  - intros Hno. exists (columns df1).
    assert (Hnot : ~ In "fetched_at" (columns df1)).
    { intros Hin. apply Hno. rewrite Hcols in Hin.
      apply in_map_iff in Hin as (c & <- & Hc). apply in_map.
      unfold Cleaner.frame_of_records in Hc. simpl in Hc.
      apply union_keys_in in Hc as [[]|(r & Hr & Hc)].
      now apply (as_records_keys _ _ _ Hrec Hr). }
    split; [|exact Hnot]. unfold Cleaner.set_item. simpl.
    destruct (has_label "fetched_at" (columns df1)) eqn:E; [|reflexivity].
    apply has_label_in in E. contradiction.
Qed.

Lemma cleaned_frame_provenance_witness :
  let df := mkFrame ["year"; "value"; "fetched_at"]
              [[SInt 2020; SFloat (11 # 2); SStr "2026-01-01T00:00:00+00:00"];
               [SInt 2021; SNull; SStr "2026-01-01T00:00:00+00:00"]] in
  In "fetched_at" (columns df) /\
  well_formed df /\
  exists cols, columns df = (cols ++ ["fetched_at"])%list /\ ~ In "fetched_at" cols.
Proof.
  intros df.
  destruct (cleaned_frame_provenance Examples.as_is Cleaner.parse_decimal
              "2026-01-01T00:00:00+00:00" Examples.repeated df)
    as (Hin & _ & Hwf & Hlast).
  - vm_compute. reflexivity.
  - discriminate.
  - repeat split; try assumption. apply Hlast.
    vm_compute. intros [E|[E|[E|[E|[E|[E|[E|[E|[]]]]]]]]]; discriminate E.
Defined.

(** X5: when the field names of the response are ASCII, every column
    label of the frame [clean_data] returns is in the normal form of
    [_to_snake_case]: it is ASCII, renaming it again changes nothing, and
    it holds no capital, no whitespace and no hyphen. *)
Theorem cleaned_frame_labels (other : string -> string)
    (parse : string -> option Q) (now : string)
    (raw : RawResponse) (df : DataFrame) :
  Cleaner.clean_data other parse now raw = Returns df ->
  Forall (fun k => Cleaner.ascii_name k = true) (field_names raw) ->
  forall c, In c (columns df) ->
    Cleaner.ascii_name c = true /\
    Cleaner._to_snake_case other c = c /\
    all_chars no_upper c = true /\ all_chars no_separator c = true.
Proof.
  intros H Hascii c Hin.
  assert (Hc : c = "fetched_at" \/
               exists k, Cleaner.ascii_name k = true /\
                         c = Cleaner._to_snake_case other k).
  { destruct (Cleaner._extract_records raw) as [|j l] eqn:Erec.
    { unfold Cleaner.clean_data in H. rewrite Erec in H. injection H as <-.
      destruct Hin. }
    destruct (clean_data_cast parse other now raw df H) as
      (records & df1 & Hrec & _ & Hcols & _ & ->); [now rewrite Erec|].
    assert (Hc : In c (columns df1) \/ c = "fetched_at").
    { unfold Cleaner.set_item in Hin. simpl in Hin.
      destruct (has_label "fetched_at" (columns df1)); simpl in Hin; [now left|].
      apply in_app_or in Hin as [?|[<-|[]]]; [now left|now right]. }
    destruct Hc as [Hc| ->]; [|now left]. right.
    rewrite Hcols in Hc. apply in_map_iff in Hc as (k & <- & Hk).
    exists k. split; [|reflexivity].
    rewrite List.Forall_forall in Hascii. apply Hascii.
    unfold Cleaner.frame_of_records in Hk. simpl in Hk.
    apply union_keys_in in Hk as [[]|(r & Hr & Hk)].
    now apply (as_records_keys _ _ _ Hrec Hr). }
  destruct Hc as [->|(k & Hk & ->)]; [repeat split; reflexivity|].
  destruct (to_snake_case_shape other k Hk) as (Hu & Hsep & Hs & He).
  assert (Ha := to_snake_case_ascii other k Hk).
  repeat split; try assumption. now apply to_snake_case_fixed.
Qed.

Lemma cleaned_frame_labels_witness :
  Cleaner.ascii_name "value" = true /\
  Cleaner._to_snake_case Examples.as_is "value" = "value" /\
  all_chars no_upper "value" = true /\
  all_chars no_separator "value" = true.
Proof.
  apply (cleaned_frame_labels Examples.as_is Cleaner.parse_decimal
           "2026-01-01T00:00:00+00:00" Examples.repeated
           (mkFrame ["year"; "value"; "fetched_at"]
              [[SInt 2020; SFloat (11 # 2); SStr "2026-01-01T00:00:00+00:00"];
               [SInt 2021; SNull; SStr "2026-01-01T00:00:00+00:00"]])).
  - vm_compute. reflexivity.
  - vm_compute. repeat constructor.
  - simpl. tauto.
Defined.

(** ** Rows kept by the cleaning *)

Section KeptRows.

Import Cleaner.

Variable parse : string -> option Q.

Lemma as_records_length (l : list json) :
  forall records, as_records l = Some records -> length records = length l.
Proof.
  induction l as [|j t IH]; intros records H; simpl in H.
  - now injection H as <-.
  - destruct (as_record j); [|discriminate].
    destruct (as_records t) as [rs|]; [|discriminate].
    injection H as <-. simpl. f_equal. now apply IH.
Qed.

Lemma assign_columns_rows (f : scalar -> outcome scalar) (cols : list string) :
  forall df df', assign_columns f cols df = Returns df' ->
  length (rows df') = length (rows df).
Proof.
  induction cols as [|c cs IH]; intros df df' H; simpl in H.
  - now injection H as <-.
  - destruct (assign_column f df c) as [df1| |] eqn:E; try discriminate.
    simpl in H. rewrite (IH _ _ H). unfold assign_column in E.
    destruct (1 <? _)%nat; [discriminate|].
    destruct (for_each _ (rows df)) as [rows'| |] eqn:Er; try discriminate.
    simpl in E. injection E as <-. simpl. now apply for_each_length in Er.
Qed.

Lemma cast_types_rows (df df' : DataFrame) :
  _cast_types parse df = Returns df' -> length (rows df') = length (rows df).
Proof.
  unfold _cast_types. intros H.
  destruct (assign_columns _ (List.filter (contains "year") _) df)
    as [df1| |] eqn:E1; try discriminate.
  cbn [mbind outcome_bind] in H.
  destruct (assign_columns _ (List.filter _ (columns df1)) df1)
    as [df2| |] eqn:E2; try discriminate.
  cbn [mbind outcome_bind] in H. injection H as <-.
  rewrite (assign_columns_rows _ _ _ _ E2). exact (assign_columns_rows _ _ _ _ E1).
Qed.

Lemma keep_first_length (rs : list (list scalar)) :
  forall seen, (length (keep_first seen rs) <= length rs)%nat.
Proof.
  induction rs as [|r t IH]; intros seen; simpl; [lia|].
  destruct (existsb (row_eqb r) seen); simpl.
  - specialize (IH seen). lia.
  - specialize (IH (r :: seen)). lia.
Qed.

Lemma scalar_eqb_refl (a : scalar) : scalar_eqb a a = true.
Proof.
  destruct a; simpl; try reflexivity.
  - apply String.eqb_refl.
  - apply Qeq_bool_iff. reflexivity.
  - apply Qeq_bool_iff. reflexivity.
Qed.

Lemma row_eqb_refl (r : list scalar) : row_eqb r r = true.
Proof.
  induction r as [|a t IH]; simpl; [reflexivity|].
  now rewrite scalar_eqb_refl, IH.
Qed.

(** Every row is equal to a row already seen or to a row kept. *)
Lemma keep_first_covers (rs : list (list scalar)) :
  forall seen r, In r rs ->
  exists k, (In k seen \/ In k (keep_first seen rs)) /\ row_eqb r k = true.
Proof.
  induction rs as [|r0 t IH]; intros seen r Hin; [destruct Hin|]. simpl.
  destruct (existsb (row_eqb r0) seen) eqn:E.
  - destruct Hin as [<-|Hin]; [|now apply IH].
    apply existsb_exists in E as (k & Hk & Heq). exists k. split; [now left|exact Heq].
  - destruct Hin as [<-|Hin].
    + exists r0. split; [right; now left|apply row_eqb_refl].
    + destruct (IH (r0 :: seen) r Hin) as (k & Hk & Heq).
      exists k. split; [|exact Heq].
      destruct Hk as [[Hk|Hk]|Hk].
      * right. now left.
      * now left.
      * right. now right.
Qed.

Lemma data_cells_eqb (cols : list string) :
  forall r s, row_eqb r s = true ->
  row_eqb (data_cells cols r) (data_cells cols s) = true.
Proof.
  induction cols as [|c cs IH]; intros [|a r] [|b s] H; simpl in *;
    try reflexivity; try discriminate.
  apply andb_true_iff in H as [Hab Hrs].
  destruct (String.eqb c "fetched_at"); simpl; [now apply IH|].
  rewrite Hab. now apply IH.
Qed.

End KeptRows.

(** X6: cleaning adds no row: the frame [clean_data] returns has at most
    as many rows as the response has records. *)
Theorem cleaned_frame_rows (other : string -> string)
    (parse : string -> option Q) (now : string)
    (raw : RawResponse) (df : DataFrame) :
  Cleaner.clean_data other parse now raw = Returns df ->
  (length (rows df) <= length (Cleaner._extract_records raw))%nat.
Proof.
  intros H.
  destruct (Cleaner._extract_records raw) as [|j l] eqn:Erec.
  { unfold Cleaner.clean_data in H. rewrite Erec in H. now injection H as <-. }
  destruct (clean_data_cast parse other now raw df H) as
    (records & df1 & Hrec & Hcast & _ & _ & ->); [now rewrite Erec|].
  rewrite Erec in Hrec. apply as_records_length in Hrec.
  apply cast_types_rows in Hcast. simpl in Hcast. rewrite length_map in Hcast.
  assert (Hkept : (length (rows (Cleaner.drop_duplicates
                     (Cleaner._drop_empty_rows df1))) <= length (rows df1))%nat).
  { simpl. etransitivity; [apply keep_first_length|apply List.filter_length_le]. }
  unfold Cleaner.set_item.
  unfold record in *.
  destruct (has_label _ _); simpl rows; rewrite length_map; simpl in *; lia.
Qed.

Lemma cleaned_frame_rows_witness :
  (length (rows (mkFrame ["year"; "value"; "fetched_at"]
             [[SInt 2020; SFloat (11 # 2); SStr "2026-01-01T00:00:00+00:00"];
              [SInt 2021; SNull; SStr "2026-01-01T00:00:00+00:00"]]))
   <= length (Cleaner._extract_records Examples.repeated))%nat.
Proof.
  apply (cleaned_frame_rows Examples.as_is Cleaner.parse_decimal "2026-01-01T00:00:00+00:00").
  vm_compute. reflexivity.
Defined.

(** X7: cleaning loses no distinct record: a row of the frame after the
    casts that is not null in all its data fields has a row in the result
    that is equal to it on all the fields that are not provenance. *)
Theorem cleaned_frame_complete (other : string -> string)
    (parse : string -> option Q) (now : string)
    (raw : RawResponse) (records : list record) (df1 df : DataFrame)
    (row : list scalar) :
  Cleaner.as_records (Cleaner._extract_records raw) = Some records ->
  Cleaner._cast_types parse
    (Cleaner._normalize_columns other (Cleaner.frame_of_records records)) = Returns df1 ->
  Cleaner.clean_data other parse now raw = Returns df ->
  In row (rows df1) ->
  all_null (columns df1) row = false ->
  exists row', In row' (rows df) /\
    row_eqb (Cleaner.data_cells (columns df1) row)
            (Cleaner.data_cells (columns df) row') = true.
Proof.
  intros Hrec Hcast H Hrow Hnull.
  assert (Hne : Cleaner._extract_records raw <> []).
  { intros E. rewrite E in Hrec. simpl in Hrec. injection Hrec as <-.
    vm_compute in Hcast. injection Hcast as <-. destruct Hrow. }
  destruct (clean_data_cast parse other now raw df H Hne) as
    (records' & df1' & Hrec' & Hcast' & _ & Hwf & ->).
  rewrite Hrec in Hrec'. injection Hrec' as <-.
  rewrite Hcast in Hcast'. injection Hcast' as <-.
  assert (Hfiltered : In row (rows (Cleaner._drop_empty_rows df1))).
  { simpl. apply filter_In. split; [exact Hrow|]. unfold all_null in Hnull.
    now rewrite Hnull. }
  destruct (keep_first_covers _ [] row Hfiltered) as (k & [[]|Hk] & Heq).
  assert (Hlen : length k = length (columns df1)).
  { unfold well_formed in Hwf. rewrite List.Forall_forall in Hwf. apply Hwf.
    apply keep_first_in in Hk. simpl in Hk. now apply filter_In in Hk. }
  apply (data_cells_eqb (columns df1)) in Heq.
  unfold Cleaner.set_item. simpl.
  destruct (has_label "fetched_at" (columns df1)); simpl.
  - exists (Cleaner.overwrite "fetched_at" (SStr now) (columns df1) k).
    split; [now apply in_map|]. now rewrite data_cells_overwrite.
  - exists (k ++ [SStr now])%list.
    split; [now apply (in_map (fun r => (r ++ [SStr now])%list))|].
    now rewrite data_cells_append.
Qed.

Lemma cleaned_frame_complete_witness :
  exists row',
    In row' [[SInt 2020; SFloat (11 # 2); SStr "2026-01-01T00:00:00+00:00"];
             [SInt 2021; SNull; SStr "2026-01-01T00:00:00+00:00"]] /\
    row_eqb (Cleaner.data_cells ["year"; "value"] [SInt 2020; SFloat (11 # 2)])
            (Cleaner.data_cells ["year"; "value"; "fetched_at"] row') = true.
Proof.
  apply (cleaned_frame_complete Examples.as_is Cleaner.parse_decimal "2026-01-01T00:00:00+00:00"
           Examples.repeated
           [[("Year", SStr "2020"); ("Value", SStr "5.5")];
            [("Year", SInt 2020); ("Value", SFloat (11 # 2))];
            [("Year", SStr "x"); ("Value", SNull)];
            [("Year", SStr "2021"); ("Value", SStr "n/a")]]
           (mkFrame ["year"; "value"]
              [[SInt 2020; SFloat (11 # 2)]; [SInt 2020; SFloat (11 # 2)];
               [SNull; SNull]; [SInt 2021; SNull]])
           (mkFrame ["year"; "value"; "fetched_at"]
              [[SInt 2020; SFloat (11 # 2); SStr "2026-01-01T00:00:00+00:00"];
               [SInt 2021; SNull; SStr "2026-01-01T00:00:00+00:00"]])
           [SInt 2020; SFloat (11 # 2)]).
  - reflexivity.
  - vm_compute. reflexivity.
  - vm_compute. reflexivity.
  - simpl. tauto.
  - reflexivity.
Defined.

(** ** The two extractors *)

Lemma first_list_enveloped (keys : list string) (d : list (string * json))
    (k : string) (l : list json) :
  In k keys -> dict_get k d = Some (JList l) ->
  exists l', first_list keys d = Some l'.
Proof.
  induction keys as [|k0 ks IH]; [intros []|].
  intros [->|Hin] Hk; simpl; unfold holds_list at 1.
  - rewrite Hk. eauto.
  - destruct (dict_get k0 d) as [[]|]; eauto.
Qed.

(** X8: for every response, whatever JSON value it is, the presence
    check of the orchestrator answers true exactly when [_extract_list]
    of the command line, with its default keys, yields a record. *)
Theorem has_data_iff_extract_list (response : json) :
  Pipeline._response_has_data response = true <->
  Cli._extract_list response wrapper_keys <> [].
Proof.
  destruct response as [| | | | |l|d];
    unfold Pipeline._response_has_data, Cli._extract_list;
    try (split; [discriminate|congruence]).
  - apply positive_length.
  - destruct (first_list wrapper_keys d) as [l|].
    + apply positive_length.
    + split; [discriminate|congruence].
Qed.

(** X9: on a response that is a list or holds a list under a wrapper key,
    [_extract_list] and [_extract_records] return the same records; on a
    mapping without such a key [_extract_list] returns nothing, where
    [_extract_records] wraps a non-empty mapping as one record. *)
Theorem extract_list_vs_records (raw : RawResponse) :
  (enveloped raw ->
   Cli._extract_list (json_of_raw raw) wrapper_keys = Cleaner._extract_records raw) /\
  (~ enveloped raw ->
   Cli._extract_list (json_of_raw raw) wrapper_keys = [] /\
   forall d, raw = RDict d -> d <> [] -> Cleaner._extract_records raw = [JDict d]).
Proof.
  destruct raw as [l|d];
    unfold enveloped, json_of_raw, Cli._extract_list, Cleaner._extract_records;
    split.
  - reflexivity.
  - intros H. now contradiction H.
  - intros (k & l & Hin & Hk).
    destruct (first_list_enveloped wrapper_keys d k l Hin Hk) as [l' Hl'].
    now rewrite Hl'.
  - intros Hno.
    assert (Hnone : first_list wrapper_keys d = None).
    { destruct (first_list wrapper_keys d) as [l|] eqn:E; [|reflexivity].
      exfalso. apply Hno. destruct (first_list_some _ _ _ E) as (k & Hin & Hk).
      now exists k, l. }
    rewrite Hnone. split; [reflexivity|].
    intros d' [= <-] Hd. destruct d; [contradiction|reflexivity].
Qed.

Lemma extract_list_vs_records_witness :
  Cli._extract_list (json_of_raw Examples.scenario_A) wrapper_keys =
    Cleaner._extract_records Examples.scenario_A /\
  Cli._extract_list (json_of_raw Examples.status_only) wrapper_keys = [] /\
  Cleaner._extract_records Examples.status_only = [JDict [("status", JInt 200)]].
Proof.
  split.
  - apply (proj1 (extract_list_vs_records Examples.scenario_A)).
    exists "data". eexists. split; [now left|reflexivity].
  - assert (Hno : ~ enveloped Examples.status_only).
    { intros (k & l & Hin & Hk). simpl in Hin.
      destruct Hin as [<-|[<-|[<-|[<-|[]]]]]; vm_compute in Hk; discriminate Hk. }
    destruct (proj2 (extract_list_vs_records Examples.status_only) Hno) as [He Hr].
    split; [exact He|]. apply Hr; [reflexivity|discriminate].
Defined.

(** ** Answers that end a call at once *)

(** X10: when the first response has a 2xx status, the call returns the
    body read from it after exactly one request; when it has a 4xx status
    other than 401, 403 and 429, the call raises the HTTP status error of
    that status after exactly one request. *)
Theorem settled_first_response (env : environment) (m : http_method)
    (path : string) (payload : list (string * param)) (w : world) (r : Response) :
  server env (length (sent w)) (mkRequest m path payload) = Answered r ->
  (200 <= status r <= 299 ->
   call env m path payload w =
   (Returns (Client.read_body r), after_requests 1 (mkRequest m path payload) w)) /\
  (400 <= status r <= 499 ->
   status r <> 401 -> status r <> 403 -> status r <> 429 ->
   call env m path payload w =
   (Raises (HTTPStatusError (status r)),
    after_requests 1 (mkRequest m path payload) w)).
Proof.
  intros Hr. rewrite call_eq.
  assert (Hloop : status r < 500 ->
            Client.attempt_loop 2 (once env m path payload) w =
            (Client.answer (Answered r), after_requests 1 (mkRequest m path payload) w)).
  { intros Hs. rewrite attempt_loop_settled; rewrite Hr; [reflexivity|].
    simpl. now apply Z.leb_gt. }
  split.
  - intros Hs. rewrite Hloop by lia. simpl.
    unfold Client._raise_for_status, Client.raise_for_status.
    destruct (Z.eqb_spec (status r) 401); [lia|].
    destruct (Z.eqb_spec (status r) 403); [lia|].
    destruct (Z.eqb_spec (status r) 429); [lia|].
    destruct (Z.leb_spec 200 (status r)); [|lia].
    destruct (Z.leb_spec (status r) 299); [|lia].
    reflexivity.
  - intros Hs H401 H403 H429. rewrite Hloop by lia. simpl.
    unfold Client._raise_for_status, Client.raise_for_status.
    destruct (Z.eqb_spec (status r) 401); [contradiction|].
    destruct (Z.eqb_spec (status r) 403); [contradiction|].
    destruct (Z.eqb_spec (status r) 429); [contradiction|].
    destruct (Z.leb_spec 200 (status r)); [|lia].
    destruct (Z.leb_spec (status r) 299); [lia|].
    reflexivity.
Qed.

Lemma settled_first_response_witness :
  call Examples.silent_env GET "/ping" [] Examples.fresh =
    (Returns (JDict [("status", JInt 200)]),
     after_requests 1 (mkRequest GET "/ping" []) Examples.fresh) /\
  call Examples.missing_env GET "/en/data/NONE" [] Examples.fresh =
    (Raises (HTTPStatusError 404),
     after_requests 1 (mkRequest GET "/en/data/NONE" []) Examples.fresh).
Proof.
  split.
  - apply (proj1 (settled_first_response Examples.silent_env GET "/ping" []
                    Examples.fresh (mkResponse 200 "" None) eq_refl)).
    simpl. lia.
  - apply (proj2 (settled_first_response Examples.missing_env GET "/en/data/NONE" []
                    Examples.fresh (mkResponse 404 "not found" None) eq_refl));
      simpl; lia.
Defined.

(** ** The rate limiter *)

Lemma throttle_spacing (last now lag : Q) :
  (0 <= lag)%Q ->
  (last + Client._MIN_INTERVAL <= Client._throttle last now lag)%Q.
Proof.
  intros Hlag. unfold Client._throttle, Client.throttle_wait.
  generalize Client._MIN_INTERVAL as M. intros M.
  destruct (Qle_bool M (now - last)) eqn:E.
  - apply Qle_bool_iff in E. lra.
  - lra.
Qed.

Lemma permits_after (passes : list (Q * Q)) :
  forall (last : Q) (k : nat) (b : Q),
  Forall (fun p => (0 <= snd p)%Q) passes ->
  Client.permits last passes !! k = Some b ->
  (last + inject_Z (Z.of_nat (S k)) * Client._MIN_INTERVAL <= b)%Q.
Proof.
  induction passes as [|[now lag] rest IH]; intros last k b Hlags Hk;
    [discriminate|].
  apply Forall_cons_iff in Hlags as [Hlag Hlags]. simpl in Hlag, Hk.
  pose proof (throttle_spacing last now lag Hlag) as Hfirst.
  destruct k as [|k]; simpl in Hk.
  - injection Hk as <-. change (inject_Z (Z.of_nat 1)) with 1%Q. lra.
  - specialize (IH _ _ _ Hlags Hk).
    rewrite Nat2Z.inj_succ, <- Z.add_1_r, inject_Z_plus.
    change (inject_Z 1) with 1%Q.
    set (x := inject_Z (Z.of_nat (S k))) in *. nra.
Qed.

(** X11: the rate limiter keeps the permits apart: when every sleep lasts
    at least as long as asked, the permit number j comes at least
    (j - i) times the minimum interval (half a second) after the permit
    number i. *)
Theorem permits_spacing (passes : list (Q * Q)) :
  forall (last : Q) (i j : nat) (a b : Q),
  Forall (fun p => (0 <= snd p)%Q) passes ->
  (i <= j)%nat ->
  Client.permits last passes !! i = Some a ->
  Client.permits last passes !! j = Some b ->
  (a + inject_Z (Z.of_nat (j - i)) * Client._MIN_INTERVAL <= b)%Q.
Proof.
  induction passes as [|[now lag] rest IH]; intros last i j a b Hlags Hij Hi Hj;
    [discriminate|].
  pose proof Hlags as Hall.
  apply Forall_cons_iff in Hlags as [Hlag Hlags].
  destruct i as [|i]; destruct j as [|j]; simpl in Hi, Hj; try lia.
  - injection Hi as <-. injection Hj as <-.
    change (inject_Z (Z.of_nat (0 - 0))) with 0%Q.
    generalize (Client._throttle last now lag) as t, Client._MIN_INTERVAL as M.
    intros t M. lra.
  - injection Hi as <-. rewrite Nat.sub_0_r.
    exact (permits_after rest _ j b Hlags Hj).
  - change (S j - S i)%nat with (j - i)%nat.
    apply (IH (Client._throttle last now lag) i j a b Hlags); [lia|assumption..].
Qed.

Lemma permits_spacing_witness :
  let times := Client.permits 0 [(100, 0); (100, 0); (100, 0); (100, 0); (100, 0)]%Q in
  (nth 0 times 0 + inject_Z 4 * Client._MIN_INTERVAL <= nth 4 times 0)%Q.
Proof.
  intros times.
  apply (permits_spacing [(100, 0); (100, 0); (100, 0); (100, 0); (100, 0)]%Q
           0%Q 0 4 (nth 0 times 0%Q) (nth 4 times 0%Q)).
  - repeat constructor; simpl; apply Qle_refl.
  - lia.
  - reflexivity.
  - reflexivity.
Defined.

(** ** What the exporter writes *)

(** What [export] does with a frame that is not empty, by the first write
    that is refused. *)
Lemma export_outcome (write_error : fs_event -> option exn) (df : DataFrame)
    (domain_code output_dir : string) (to_csv to_parquet : bool)
    (compression : string) (w : world) :
  empty df = false ->
  let domain_dir := PathJoin (PathOf output_dir) domain_code in
  let csv := ToCsv (PathJoin domain_dir "data.csv") df in
  let parquet := ToParquet (PathJoin domain_dir "data.parquet") compression df in
  Exporter.export write_error df domain_code output_dir to_csv to_parquet
    compression w =
  match (if to_csv then write_error csv else None) with
  | Some x => (Raises x, mkWorld (sent w) (disk w ++ [Mkdir domain_dir]))
  | None =>
      match (if to_parquet then write_error parquet else None) with
      | Some x =>
          (Raises x,
           mkWorld (sent w)
             (disk w ++ Mkdir domain_dir :: (if to_csv then [csv] else [])))
      | None =>
          (Returns
             ((if to_parquet
               then <["parquet" := PathJoin domain_dir "data.parquet"]>
               else fun m => m)
                ((if to_csv
                  then <["csv" := PathJoin domain_dir "data.csv"]>
                  else fun m => m) (∅ : gmap string Path))),
           mkWorld (sent w)
             (disk w ++ Mkdir domain_dir ::
                exported_files df domain_dir to_csv to_parquet compression))
      end
  end.
Proof.
  intros Hne domain_dir csv parquet. unfold Exporter.export. rewrite Hne.
  fold domain_dir. unfold exported_files, Exporter.write, Exporter.and_then,
    Exporter.perform.
  fold csv. fold parquet.
  destruct to_csv, to_parquet; cbv beta iota zeta;
    try destruct (write_error csv); try destruct (write_error parquet);
    cbn [sent disk app]; rewrite <- ?app_assoc; reflexivity.
Qed.

(** X12: [export] of a frame that is not empty sends no request.  When no
    write it is asked for is refused, it returns the path
    output_dir/domain_code/data.csv under "csv" exactly when CSV is asked
    for, the path of data.parquet under "parquet" exactly when Parquet is
    asked for, and no other entry; on the disk it creates the directory
    and then writes those files, each holding the frame.  When the CSV
    write is refused, it raises that exception and leaves the directory
    behind; when the Parquet write is refused, it raises that exception
    and leaves the directory behind, with data.csv in it if CSV was asked
    for. *)
Theorem export_formats (write_error : fs_event -> option exn) (df : DataFrame)
    (domain_code output_dir : string) (to_csv to_parquet : bool)
    (compression : string) (w : world) :
  empty df = false ->
  let domain_dir := PathJoin (PathOf output_dir) domain_code in
  let csv := ToCsv (PathJoin domain_dir "data.csv") df in
  let parquet := ToParquet (PathJoin domain_dir "data.parquet") compression df in
  let run :=
    Exporter.export write_error df domain_code output_dir to_csv to_parquet
      compression w in
  ((forall e, In e (exported_files df domain_dir to_csv to_parquet compression) ->
      write_error e = None) ->
   exists written,
     run =
     (Returns written,
      mkWorld (sent w)
        (disk w ++ Mkdir domain_dir ::
           exported_files df domain_dir to_csv to_parquet compression)) /\
     written !! "csv" =
       (if to_csv then Some (PathJoin domain_dir "data.csv") else None) /\
     written !! "parquet" =
       (if to_parquet then Some (PathJoin domain_dir "data.parquet") else None) /\
     forall key, key <> "csv" -> key <> "parquet" -> written !! key = None) /\
  (forall x, to_csv = true -> write_error csv = Some x ->
     run = (Raises x, mkWorld (sent w) (disk w ++ [Mkdir domain_dir]))) /\
  (forall x, to_parquet = true -> write_error parquet = Some x ->
     (to_csv = true -> write_error csv = None) ->
     run =
     (Raises x,
      mkWorld (sent w)
        (disk w ++ Mkdir domain_dir :: (if to_csv then [csv] else [])))).
Proof.
  intros Hne domain_dir csv parquet run. subst run.
  rewrite (export_outcome write_error df domain_code output_dir to_csv to_parquet
             compression w Hne).
  fold domain_dir. fold csv. fold parquet.
  split; [|split].
  - intros Hok.
    assert (Hcsv : (if to_csv then write_error csv else None) = None).
    { destruct to_csv; [|reflexivity]. apply Hok. unfold exported_files.
      apply in_or_app. left. now left. }
    assert (Hpq : (if to_parquet then write_error parquet else None) = None).
    { destruct to_parquet; [|reflexivity]. apply Hok. unfold exported_files.
      apply in_or_app. right. now left. }
    rewrite Hcsv, Hpq. eexists. split; [reflexivity|].
    destruct to_csv, to_parquet; repeat split; try reflexivity;
      intros key H1 H2; rewrite ?lookup_insert_ne by congruence;
      apply lookup_empty.
  - intros x -> Hx. now rewrite Hx.
  - intros x -> Hx Hcsv.
    assert (Hc : (if to_csv then write_error csv else None) = None)
      by (destruct to_csv; [now apply Hcsv|reflexivity]).
    now rewrite Hc, Hx.
Qed.

Lemma export_formats_witness :
  (exists written,
     fst (Exporter.export Examples.accepted Examples.one_row "QCL" "./output"
            true false "snappy" Examples.fresh) = Returns written /\
     written !! "csv" =
       Some (PathJoin (PathJoin (PathOf "./output") "QCL") "data.csv") /\
     written !! "parquet" = None) /\
  Exporter.export Examples.no_parquet Examples.one_row "QCL" "./output" true
    true "snappy" Examples.fresh =
  (Raises (ValueError "Duplicate column names found"),
   mkWorld []
     [Mkdir (PathJoin (PathOf "./output") "QCL");
      ToCsv (PathJoin (PathJoin (PathOf "./output") "QCL") "data.csv")
        Examples.one_row]).
Proof.
  split.
  - destruct (proj1 (export_formats Examples.accepted Examples.one_row "QCL"
                       "./output" true false "snappy" Examples.fresh eq_refl))
      as (written & He & Hcsv & Hpq & _); [reflexivity|].
    exists written. rewrite He. repeat split; assumption.
  - apply (proj2 (proj2 (export_formats Examples.no_parquet Examples.one_row
                           "QCL" "./output" true true "snappy" Examples.fresh
                           eq_refl))); reflexivity.
Defined.

(** ** Runs of the pipeline *)

Lemma call_settled (env : environment) (m : http_method) (path : string)
    (payload : list (string * param)) (w : world) :
  transient (server env (length (sent w)) (mkRequest m path payload)) = false ->
  call env m path payload w =
  (Client.answer (server env (length (sent w)) (mkRequest m path payload)),
   after_requests 1 (mkRequest m path payload) w).
Proof. intros H. rewrite call_eq. now apply attempt_loop_settled. Qed.

Lemma call_requests (env : environment) (m : http_method) (path : string)
    (payload : list (string * param)) (w : world) :
  exists k, (1 <= k <= 3)%nat /\
    snd (call env m path payload w) = after_requests k (mkRequest m path payload) w.
Proof.
  rewrite call_eq.
  destruct (transient (server env (length (sent w)) (mkRequest m path payload)))
    eqn:T1.
  - rewrite attempt_loop_again by exact T1.
    destruct (transient (server env
                (length (sent (after_requests 1 (mkRequest m path payload) w)))
                (mkRequest m path payload))) eqn:T2.
    + rewrite attempt_loop_again by exact T2.
      rewrite attempt_loop_last, !after_requests_more.
      exists 3%nat. split; [lia|reflexivity].
    + rewrite attempt_loop_settled by exact T2. rewrite after_requests_more.
      exists 2%nat. split; [lia|reflexivity].
  - rewrite attempt_loop_settled by exact T1.
    exists 1%nat. split; [lia|reflexivity].
Qed.

Lemma answer_success (r : Response) :
  200 <= status r <= 299 ->
  Client.answer (Answered r) = Returns (Client.read_body r).
Proof.
  intros Hs. simpl. unfold Client._raise_for_status, Client.raise_for_status.
  destruct (Z.eqb_spec (status r) 401); [lia|].
  destruct (Z.eqb_spec (status r) 403); [lia|].
  destruct (Z.eqb_spec (status r) 429); [lia|].
  destruct (Z.leb_spec 200 (status r)); [|lia].
  destruct (Z.leb_spec (status r) 299); [|lia].
  reflexivity.
Qed.

Lemma get_data_call (env : environment) (domain_code lang : string)
    (f : Endpoints.Filters) (w : world) :
  Endpoints.get_data env domain_code lang f w =
  call env GET (path (data_request domain_code lang f))
    (payload (data_request domain_code lang f)) w.
Proof. reflexivity. Qed.

Lemma get_datasize_call (env : environment) (domain_code lang : string)
    (f : Endpoints.Filters) (w : world) :
  Endpoints.get_datasize env
    (("domain_code", PStr domain_code) :: Endpoints.filter_items f) lang w =
  call env POST (path (size_request domain_code lang f))
    (payload (size_request domain_code lang f)) w.
Proof. reflexivity. Qed.

(** The world before the data request of a run. *)
Lemma sized_world (env : environment) (domain_code lang : string)
    (f : Endpoints.Filters) (check_size_first : bool) (w : world) :
  exists k, (k <= 3)%nat /\ (check_size_first = false -> k = 0%nat) /\
    (if check_size_first
     then snd (Endpoints.get_datasize env
                 (("domain_code", PStr domain_code) :: Endpoints.filter_items f)
                 lang w)
     else w) = after_requests k (size_request domain_code lang f) w.
Proof.
  destruct check_size_first.
  - rewrite get_datasize_call.
    destruct (call_requests env POST (path (size_request domain_code lang f))
                (payload (size_request domain_code lang f)) w) as (k & Hk & ->).
    exists k. repeat split; [lia|discriminate].
  - exists 0%nat. repeat split; [lia|].
    unfold after_requests. simpl. rewrite app_nil_r. now destruct w.
Qed.

(** The ways a run ends, with what it sent and what it wrote. *)
Lemma run_pipeline_shape (env : environment) (domain_code lang output_dir : string)
    (to_csv to_parquet : bool) (compression : string) (f : Endpoints.Filters)
    (check_size_first : bool) (w : world) :
  exists (k1 k2 : nat) (o : outcome (gmap string Path)) (written : list fs_event),
    Pipeline.run_pipeline env domain_code lang output_dir to_csv to_parquet
      compression f check_size_first w =
    (o, mkWorld
          (sent w ++ repeat (size_request domain_code lang f) k1 ++
             repeat (data_request domain_code lang f) k2)
          (disk w ++ written)) /\
    (k1 <= 3)%nat /\ (k2 <= 3)%nat /\
    (check_size_first = false -> k1 = 0%nat) /\
    (Client.FAOSTATClient env = Returns tt -> (1 <= k2)%nat) /\
    match o with
    | Returns _ =>
        exists df, empty df = false /\
          (forall e,
             In e (exported_files df (PathJoin (PathOf output_dir) domain_code)
                     to_csv to_parquet compression) ->
             write_error env e = None) /\
          written = Mkdir (PathJoin (PathOf output_dir) domain_code) ::
                    exported_files df (PathJoin (PathOf output_dir) domain_code)
                      to_csv to_parquet compression
    | Raises x =>
        written = [] \/
        exists df, empty df = false /\
          refused_export (write_error env) df
            (PathJoin (PathOf output_dir) domain_code) to_csv to_parquet
            compression x written
    | OutOfModel => written = []
    end.
Proof.
  unfold Pipeline.run_pipeline.
  destruct (Client.FAOSTATClient env) as [[]|e|] eqn:Eclient.
  2,3: exists 0%nat, 0%nat; eexists; exists [];
       (split; [simpl; rewrite !app_nil_r; now destruct w|]);
       repeat split; try lia; try (intros; discriminate); now left.
  destruct (sized_world env domain_code lang f check_size_first w)
    as (k1 & Hk1 & Hcheck & ->).
  set (w0 := after_requests k1 (size_request domain_code lang f) w).
  destruct (call_requests env GET (path (data_request domain_code lang f))
              (payload (data_request domain_code lang f)) w0) as (k2 & Hk2 & Hw1).
  rewrite get_data_call.
  destruct (call env GET _ _ w0) as [fetched w1]. simpl in Hw1. subst w1.
  set (domain_dir := PathJoin (PathOf output_dir) domain_code).
  assert (Hworld : forall files,
    mkWorld (sent (after_requests k2 (data_request domain_code lang f) w0))
      (disk (after_requests k2 (data_request domain_code lang f) w0) ++ files) =
    mkWorld
      (sent w ++ repeat (size_request domain_code lang f) k1 ++
         repeat (data_request domain_code lang f) k2)
      (disk w ++ files)).
  { intros files. unfold after_requests, w0. simpl. now rewrite <- app_assoc. }
  assert (Hend : forall (o : outcome (gmap string Path)),
    match o with Returns _ => False | _ => True end ->
    exists (k1' k2' : nat) o' written,
      (o, after_requests k2 (data_request domain_code lang f) w0) =
      (o', mkWorld
            (sent w ++ repeat (size_request domain_code lang f) k1' ++
               repeat (data_request domain_code lang f) k2')
            (disk w ++ written)) /\
      (k1' <= 3)%nat /\ (k2' <= 3)%nat /\
      (check_size_first = false -> k1' = 0%nat) /\
      (Returns tt = Returns tt -> (1 <= k2')%nat) /\
      match o' with
      | Returns _ =>
          exists df, empty df = false /\
            (forall e,
               In e (exported_files df domain_dir to_csv to_parquet compression) ->
               write_error env e = None) /\
            written = Mkdir domain_dir ::
                      exported_files df domain_dir to_csv to_parquet compression
      | Raises x =>
          written = [] \/
          exists df, empty df = false /\
            refused_export (write_error env) df domain_dir to_csv to_parquet
              compression x written
      | OutOfModel => written = []
      end).
  { intros o Ho. exists k1, k2, o, []. split.
    - rewrite <- Hworld, app_nil_r.
      now destruct (after_requests k2 (data_request domain_code lang f) w0).
    - repeat split; try lia; try assumption. destruct o; tauto. }
  destruct fetched as [raw|e|]; [|now apply Hend..].
  destruct (Pipeline._response_has_data raw); simpl negb; cbv iota;
    [|now apply Hend].
  destruct (raw_of_json raw) as [rr|]; [|now apply Hend].
  destruct (Cleaner.clean_data _ _ _ rr) as [df|e|]; [|now apply Hend..].
  destruct (empty df) eqn:Edf; [now apply Hend|].
  rewrite (export_outcome (write_error env) df domain_code output_dir to_csv
             to_parquet compression _ Edf).
  fold domain_dir.
  set (csv := ToCsv (PathJoin domain_dir "data.csv") df).
  set (parquet := ToParquet (PathJoin domain_dir "data.parquet") compression df).
  destruct (if to_csv then write_error env csv else None) as [x|] eqn:Ecsv.
  { exists k1, k2, (Raises x), [Mkdir domain_dir].
    split; [now rewrite Hworld|].
    repeat split; try lia; try assumption. right. exists df.
    split; [exact Edf|]. left.
    destruct to_csv; [|discriminate]. now repeat split. }
  destruct (if to_parquet then write_error env parquet else None) as [x|] eqn:Epq.
  { exists k1, k2, (Raises x), (Mkdir domain_dir :: (if to_csv then [csv] else [])).
    split; [now rewrite Hworld|].
    repeat split; try lia; try assumption. right. exists df.
    split; [exact Edf|]. right.
    destruct to_parquet; [|discriminate].
    repeat split; try assumption; try reflexivity. now intros ->. }
  eexists k1, k2, (Returns _), _.
  split; [now rewrite Hworld|].
  repeat split; try lia; try assumption. exists df.
  split; [exact Edf|]. split; [|reflexivity].
  intros e He. unfold exported_files in He.
  apply in_app_or in He as [He|He].
  - destruct to_csv; [|destruct He]. now destruct He as [<-|[]].
  - destruct to_parquet; [|destruct He]. now destruct He as [<-|[]].
Qed.

(** X14: a run of the pipeline that returns has created the directory
    output_dir/domain_code and written there the files asked for, none
    refused, all holding one frame, which is not empty.  A run that raises
    leaves the disk as it was, unless what it raises comes from a refused
    write of a frame that is not empty: then the directory stays behind,
    with data.csv in it if that was written before.  When no write is ever
    refused, a run that raises leaves the disk as it was. *)
Theorem run_pipeline_disk (env : environment) (domain_code lang output_dir : string)
    (to_csv to_parquet : bool) (compression : string) (f : Endpoints.Filters)
    (check_size_first : bool) (w : world) :
  let run :=
    Pipeline.run_pipeline env domain_code lang output_dir to_csv to_parquet
      compression f check_size_first w in
  let domain_dir := PathJoin (PathOf output_dir) domain_code in
  (forall written, fst run = Returns written ->
   exists df, empty df = false /\
     (forall e,
        In e (exported_files df domain_dir to_csv to_parquet compression) ->
        write_error env e = None) /\
     disk (snd run) =
     (disk w ++ Mkdir domain_dir ::
        exported_files df domain_dir to_csv to_parquet compression)%list) /\
  (forall x, fst run = Raises x ->
   disk (snd run) = disk w \/
   exists df files, empty df = false /\
     refused_export (write_error env) df domain_dir to_csv to_parquet
       compression x files /\
     disk (snd run) = (disk w ++ files)%list) /\
  ((forall e, write_error env e = None) ->
   forall x, fst run = Raises x -> disk (snd run) = disk w).
Proof.
  intros run domain_dir. subst run domain_dir.
  destruct (run_pipeline_shape env domain_code lang output_dir to_csv to_parquet
              compression f check_size_first w)
    as (k1 & k2 & o & files & -> & _ & _ & _ & _ & Ho).
  simpl. split; [|split].
  - intros written ->. destruct Ho as (df & Hdf & Hok & ->). now exists df.
  - intros x ->. destruct Ho as [->|(df & Hdf & Href)].
    + left. apply app_nil_r.
    + right. now exists df, files.
  - intros Hok x ->. destruct Ho as [->|(df & _ & Href)]; [apply app_nil_r|].
    exfalso. destruct Href as [(_ & He & _)|(_ & He & _)];
      rewrite Hok in He; discriminate He.
Qed.

Lemma run_pipeline_disk_witness :
  disk (snd (Pipeline.run_pipeline Examples.demo_env "B" "en" "./output" true true
               "snappy" Endpoints.no_filters true Examples.fresh)) = [] /\
  (exists df, empty df = false /\
     disk (snd (Pipeline.run_pipeline Examples.demo_env "A" "en" "./output" true
                  false "snappy" Endpoints.no_filters true Examples.fresh)) =
     [Mkdir (PathJoin (PathOf "./output") "A");
      ToCsv (PathJoin (PathJoin (PathOf "./output") "A") "data.csv") df]) /\
  (exists df, empty df = false /\
     disk (snd (Pipeline.run_pipeline Examples.refusing_env "A" "en" "./output"
                  true true "snappy" Endpoints.no_filters true Examples.fresh)) =
     [Mkdir (PathJoin (PathOf "./output") "A");
      ToCsv (PathJoin (PathJoin (PathOf "./output") "A") "data.csv") df]).
Proof.
  split; [|split].
  - apply (proj2 (proj2 (run_pipeline_disk Examples.demo_env "B" "en" "./output"
                           true true "snappy" Endpoints.no_filters true
                           Examples.fresh))
             (fun _ => eq_refl) (ValueError "No records returned for domain")).
    vm_compute. reflexivity.
  - destruct (proj1 (run_pipeline_disk Examples.demo_env "A" "en" "./output" true
                       false "snappy" Endpoints.no_filters true Examples.fresh)
                (<["csv" := PathJoin (PathJoin (PathOf "./output") "A") "data.csv"]> ∅))
      as (df & Hdf & _ & Hdisk).
    + vm_compute. reflexivity.
    + exists df. split; [exact Hdf|exact Hdisk].
  - destruct (proj1 (proj2 (run_pipeline_disk Examples.refusing_env "A" "en"
                              "./output" true true "snappy" Endpoints.no_filters
                              true Examples.fresh))
                (ValueError "Duplicate column names found"))
      as [Hdisk|(df & files & Hdf & Href & Hdisk)].
    + vm_compute. reflexivity.
    + vm_compute in Hdisk. discriminate Hdisk.
    + exists df. split; [exact Hdf|].
      destruct Href as [(_ & He & _)|(_ & _ & _ & ->)]; [discriminate He|].
      exact Hdisk.
Defined.

(** X15: a run of the pipeline sends at most three size requests and
    then at most three data requests, all alike within each kind, and
    nothing else: six requests at most, three without the size estimate;
    once the client is built, at least one data request goes out. *)
Theorem run_pipeline_requests (env : environment)
    (domain_code lang output_dir : string) (to_csv to_parquet : bool)
    (compression : string) (f : Endpoints.Filters) (check_size_first : bool)
    (w : world) :
  exists k1 k2 : nat,
    sent (snd (Pipeline.run_pipeline env domain_code lang output_dir to_csv
                 to_parquet compression f check_size_first w)) =
    (sent w ++ repeat (size_request domain_code lang f) k1 ++
       repeat (data_request domain_code lang f) k2)%list /\
    (k1 <= 3)%nat /\ (k2 <= 3)%nat /\
    (check_size_first = false -> k1 = 0%nat) /\
    (Client.FAOSTATClient env = Returns tt -> (1 <= k2)%nat).
Proof.
  destruct (run_pipeline_shape env domain_code lang output_dir to_csv to_parquet
              compression f check_size_first w)
    as (k1 & k2 & o & files & -> & H1 & H2 & H3 & H4 & _).
  exists k1, k2. simpl. repeat split; assumption.
Qed.

Lemma run_pipeline_requests_witness :
  exists k1 k2 : nat,
    sent (snd (Pipeline.run_pipeline Examples.flaky_env "QCL" "en" "./output" true
                 true "snappy" Endpoints.no_filters false Examples.fresh)) =
    (repeat (size_request "QCL" "en" Endpoints.no_filters) k1 ++
       repeat (data_request "QCL" "en" Endpoints.no_filters) k2)%list /\
    k1 = 0%nat /\ (1 <= k2 <= 3)%nat.
Proof.
  destruct (run_pipeline_requests Examples.flaky_env "QCL" "en" "./output" true
              true "snappy" Endpoints.no_filters false Examples.fresh)
    as (k1 & k2 & Hsent & _ & H2 & H3 & H4).
  exists k1, k2. split; [exact Hsent|].
  split; [now apply H3|]. split; [now apply H4|exact H2].
Defined.

Lemma read_body_no_data (r : Response) :
  content r = "" \/ parsed r = None \/ parsed r = Some (JList []) ->
  Pipeline._response_has_data (Client.read_body r) = false.
Proof.
  unfold Client.read_body.
  destruct (String.eqb (content r) "") eqn:E; [reflexivity|].
  intros [H|[H|H]].
  - rewrite H in E. discriminate E.
  - now rewrite H.
  - now rewrite H.
Qed.

(** X16: when the data request is answered with a 2xx status and an
    empty body, a body that is no JSON or an empty JSON list, the run
    raises the ValueError "No records returned" after that one data
    request; nothing is cleaned and nothing is written. *)
Theorem empty_upstream (env : environment) (domain_code lang output_dir : string)
    (to_csv to_parquet : bool) (compression : string) (f : Endpoints.Filters)
    (check_size_first : bool) (w : world) (r : Response) :
  let w0 :=
    if check_size_first
    then snd (Endpoints.get_datasize env
                (("domain_code", PStr domain_code) :: Endpoints.filter_items f)
                lang w)
    else w in
  Client.FAOSTATClient env = Returns tt ->
  server env (length (sent w0)) (data_request domain_code lang f) = Answered r ->
  200 <= status r <= 299 ->
  content r = "" \/ parsed r = None \/ parsed r = Some (JList []) ->
  Pipeline.run_pipeline env domain_code lang output_dir to_csv to_parquet
    compression f check_size_first w =
  (Raises (ValueError "No records returned for domain"),
   after_requests 1 (data_request domain_code lang f) w0).
Proof.
  intros w0 Hclient Hr Hs Hbody. unfold Pipeline.run_pipeline.
  rewrite Hclient. fold w0. rewrite get_data_call.
  rewrite call_settled; change (mkRequest GET _ _) with (data_request domain_code lang f);
    rewrite Hr; [|simpl; now apply Z.leb_gt; lia].
  rewrite (answer_success r Hs), (read_body_no_data r Hbody). reflexivity.
Qed.

Lemma empty_upstream_witness :
  Pipeline.run_pipeline Examples.silent_env "QCL" "en" "./output" true true
    "snappy" Endpoints.no_filters true Examples.fresh =
  (Raises (ValueError "No records returned for domain"),
   mkWorld [size_request "QCL" "en" Endpoints.no_filters;
            data_request "QCL" "en" Endpoints.no_filters] []).
Proof.
  apply (empty_upstream Examples.silent_env "QCL" "en" "./output" true true
           "snappy" Endpoints.no_filters true Examples.fresh
           (mkResponse 200 "" None)).
  - reflexivity.
  - reflexivity.
  - simpl. lia.
  - left. reflexivity.
Defined.

Lemma client_refused (env : environment) :
  API_TOKEN env = "" \/
  (exists remaining, token_seconds_left env = Some remaining /\ (remaining <= 0)%Q) ->
  exists e, is_auth e = true /\ Client.FAOSTATClient env = Raises e.
Proof.
  unfold Client.FAOSTATClient, Client._check_token_expiry.
  intros [H|(remaining & H & Hle)].
  - rewrite H. simpl. eexists; split; [|reflexivity]; reflexivity.
  - destruct (String.eqb (API_TOKEN env) ""); [eexists; split; [|reflexivity]; reflexivity|].
    rewrite H. apply Qle_bool_iff in Hle. rewrite Hle.
    eexists; split; [|reflexivity]; reflexivity.
Qed.

Lemma batch_loop_all_raise
    (run : string -> world -> outcome (gmap string Path) * world) (e : exn) :
  (forall code w, run code w = (Raises e, w)) ->
  forall codes results w,
    Pipeline.batch_loop run codes results w = (Returns results, w).
Proof.
  intros Hrun. induction codes as [|c rest IH]; intros results w; simpl;
    [reflexivity|].
  rewrite Hrun. apply IH.
Qed.

(** X17: without a token, or with a token that has expired, nothing is
    ever sent or written: [run_pipeline] raises the Auth error of the
    constructor, the command [fetch] with one domain code aborts,
    [run_pipeline_batch] returns the empty mapping, and [fetch] with
    several domain codes and a format asked for ends normally. *)
Theorem no_token_no_request (env : environment) (lang output_dir compression : string)
    (w : world) :
  API_TOKEN env = "" \/
  (exists remaining, token_seconds_left env = Some remaining /\ (remaining <= 0)%Q) ->
  exists e, is_auth e = true /\
    (forall domain_code to_csv to_parquet f check_size_first,
       Pipeline.run_pipeline env domain_code lang output_dir to_csv to_parquet
         compression f check_size_first w = (Raises e, w)) /\
    (forall domain_codes to_csv to_parquet f,
       Pipeline.run_pipeline_batch env domain_codes lang output_dir to_csv
         to_parquet compression f w = (Returns ∅, w)) /\
    (forall domain_code no_csv no_parquet area element item year,
       Cli.fetch env [domain_code] lang output_dir no_csv no_parquet
         compression area element item year w = (Raises ClickAbort, w)) /\
    (forall c1 c2 rest no_csv no_parquet area element item year,
       no_csv && no_parquet = false ->
       Cli.fetch env (c1 :: c2 :: rest) lang output_dir no_csv no_parquet
         compression area element item year w = (Returns tt, w)).
Proof.
  intros Htoken. destruct (client_refused env Htoken) as (e & He & Hclient).
  exists e. split; [exact He|].
  assert (Hrun : forall domain_code to_csv to_parquet f check_size_first w,
            Pipeline.run_pipeline env domain_code lang output_dir to_csv to_parquet
              compression f check_size_first w = (Raises e, w)).
  { intros. unfold Pipeline.run_pipeline. now rewrite Hclient. }
  assert (Hbatch : forall domain_codes to_csv to_parquet f w,
            Pipeline.run_pipeline_batch env domain_codes lang output_dir to_csv
              to_parquet compression f w = (Returns ∅, w)).
  { intros. unfold Pipeline.run_pipeline_batch.
    apply (batch_loop_all_raise _ e). intros. apply Hrun. }
  split; [intros; apply Hrun|]. split; [intros; apply Hbatch|]. split.
  - intros. unfold Cli.fetch.
    destruct (negb (negb no_csv) && negb (negb no_parquet)); [reflexivity|].
    now rewrite Hrun.
  - intros c1 c2 rest no_csv no_parquet area element item year Hfmt.
    unfold Cli.fetch. rewrite !negb_involutive, Hfmt. now rewrite Hbatch.
Qed.

Lemma no_token_no_request_witness :
  Pipeline.run_pipeline Examples.anonymous_env "QCL" "en" "./output" true true
    "snappy" Endpoints.no_filters true Examples.fresh =
    (Raises (FAOSTATAuthError "FAOSTAT_API_TOKEN is not set"), Examples.fresh) /\
  Cli.fetch Examples.anonymous_env ["QCL"; "TM"] "en" "./output" false false
    "snappy" None None None None Examples.fresh = (Returns tt, Examples.fresh).
Proof.
  destruct (no_token_no_request Examples.anonymous_env "en" "./output" "snappy"
              Examples.fresh (or_introl eq_refl))
    as (e & _ & Hrun & _ & _ & Hmany).
  split.
  - rewrite Hrun. symmetry. exact (Hrun "QCL" true true Endpoints.no_filters true).
  - apply (Hmany "QCL" "TM" [] false false None None None None). reflexivity.
Defined.

(** X18: the command [fetch] lets no exception out but click.Abort; with
    one domain code it aborts whenever the run of that domain raises;
    with several domain codes and a format asked for it ends normally,
    whatever runs of the batch raised. *)
Theorem fetch_exit (env : environment) (lang output : string)
    (no_csv no_parquet : bool) (compression : string)
    (area element item year : option string) (w : world) :
  let filters :=
    Endpoints.mkFilters (Cli.given area) (Cli.given element) (Cli.given item)
      (Cli.given year) None None None None in
  let run := fun code =>
    Pipeline.run_pipeline env code lang output (negb no_csv) (negb no_parquet)
      compression filters true in
  (forall domain_codes e,
     fst (Cli.fetch env domain_codes lang output no_csv no_parquet compression
            area element item year w) = Raises e -> e = ClickAbort) /\
  (forall code e,
     fst (run code w) = Raises e ->
     fst (Cli.fetch env [code] lang output no_csv no_parquet compression
            area element item year w) = Raises ClickAbort) /\
  (forall c1 c2 rest,
     no_csv && no_parquet = false ->
     Forall (fun entry => modelled (snd entry))
       (fst (sequential_runs run (c1 :: c2 :: rest) w)) ->
     Cli.fetch env (c1 :: c2 :: rest) lang output no_csv no_parquet compression
       area element item year w =
     (Returns tt, snd (sequential_runs run (c1 :: c2 :: rest) w))).
Proof.
  intros filters run. split; [|split].
  - intros domain_codes e. unfold Cli.fetch, Cli._handle_errors.
    match goal with |- fst (match ?x with _ => _ end) = _ -> _ =>
      destruct x as [[a|e'|] w'] end; simpl; congruence.
  - intros code e Hrun. unfold Cli.fetch. fold filters. rewrite !negb_involutive.
    destruct (no_csv && no_parquet); [reflexivity|].
    fold (run code). destruct (run code w) as [o w']. simpl in Hrun. subst o.
    reflexivity.
  - intros c1 c2 rest Hfmt Hlog. unfold Cli.fetch. fold filters.
    rewrite !negb_involutive, Hfmt.
    unfold Pipeline.run_pipeline_batch. fold run.
    destruct (batch_loop_log run (c1 :: c2 :: rest) ∅ w Hlog) as (final & Hb & _).
    now rewrite Hb.
Qed.

Lemma fetch_exit_witness :
  fst (Cli.fetch Examples.demo_env ["B"] "en" "./output" false false "snappy"
         None None None None Examples.fresh) = Raises ClickAbort /\
  fst (Cli.fetch Examples.demo_env ["A"; "B"; "C"] "en" "./output" false false
         "snappy" None None None None Examples.fresh) = Returns tt.
Proof.
  destruct (fetch_exit Examples.demo_env "en" "./output" false false "snappy"
              None None None None Examples.fresh) as (_ & Hone & Hmany).
  split.
  - apply (Hone "B" (ValueError "No records returned for domain")).
    vm_compute. reflexivity.
  - rewrite (Hmany "A" "B" ["C"]); [reflexivity|reflexivity|].
    apply modelled_log. vm_compute. reflexivity.
Defined.

(** X19: [clean_data] returns the frame without columns exactly for a
    response without records: with records, the frame it returns has the
    column fetched_at. *)
Theorem clean_data_empty (other : string -> string)
    (parse : string -> option Q) (now : string)
    (raw : RawResponse) :
  (Cleaner._extract_records raw = [] ->
   Cleaner.clean_data other parse now raw = Returns Cleaner.empty_frame) /\
  (forall df, Cleaner.clean_data other parse now raw = Returns df ->
   columns df = [] -> Cleaner._extract_records raw = []).
Proof.
  split.
  - intros H. unfold Cleaner.clean_data. now rewrite H.
  - intros df H Hcols.
    destruct (Cleaner._extract_records raw) as [|j l] eqn:Erec; [reflexivity|].
    exfalso.
    destruct (clean_data_cast parse other now raw df H) as
      (records & df1 & _ & _ & _ & _ & ->); [now rewrite Erec|].
    unfold Cleaner.set_item in Hcols. simpl in Hcols.
    destruct (has_label "fetched_at" (columns df1)) eqn:E; simpl in Hcols.
    + rewrite Hcols in E. discriminate E.
    + now destruct (columns df1).
Qed.

Lemma clean_data_empty_witness :
  Cleaner.clean_data Examples.as_is Cleaner.parse_decimal "2026-01-01T00:00:00+00:00"
    (RDict [("data", JList [])]) = Returns Cleaner.empty_frame /\
  Cleaner._extract_records (RList []) = [].
Proof.
  split.
  - apply (proj1 (clean_data_empty Examples.as_is Cleaner.parse_decimal
                    "2026-01-01T00:00:00+00:00" (RDict [("data", JList [])]))).
    reflexivity.
  - apply (proj2 (clean_data_empty Examples.as_is Cleaner.parse_decimal
                    "2026-01-01T00:00:00+00:00" (RList []))
             Cleaner.empty_frame); reflexivity.
Defined.
